(** * Wish-at/wifi: download sessions over an intermittent network

    A shallow embedding of the three Go programs of the repository
    (with_2.4g/second_method.go and its two siblings) and the properties
    of their session generator, download simulator, samplers and
    bandwidth flag.

    The Go code computes on [float64].  Every function is embedded once,
    over an abstract number type carrying the operations the code uses,
    and the embedding is then read at two instances:
    - [R], the real numbers, where [math.Log] is [ln]: the algebraic
      properties (sums, monotonicity) are proved here;
    - [float], Rocq's primitive IEEE 754 binary64 numbers, which are Go's
      [float64]: the behaviour at infinities and NaN is computed here. *)

From Stdlib Require Import List String Bool Arith ZArith Lia.
From Stdlib Require Import Reals Lra.
From Stdlib Require Import PrimFloat.
Import ListNotations.

Set Implicit Arguments.

(** ** The number interface *)

Declare Scope f64_scope.
Delimit Scope f64_scope with f64.

(** What the programs do with a [float64]: the four operations, negation,
    the two order tests ([a >= b] is [b <= a], [a > b] is [b < a]), the
    literals [0.0], [1.0] and [40], and the conversion [float64(n)] of a
    slice length. *)
Class Float64 (F : Type) : Type := {
  f0 : F;
  f1 : F;
  f40 : F;
  fadd : F -> F -> F;
  fsub : F -> F -> F;
  fmul : F -> F -> F;
  fdiv : F -> F -> F;
  fneg : F -> F;
  fleb : F -> F -> bool;
  fltb : F -> F -> bool;
  of_len : nat -> F
}.

(** The two functions of Go's [math] package that the samplers call. *)
Class MathLib (F : Type) : Type := {
  Log : F -> F;
  Pow : F -> F -> F
}.

Infix "+" := fadd : f64_scope.
Infix "-" := fsub : f64_scope.
Infix "*" := fmul : f64_scope.
Infix "/" := fdiv : f64_scope.
Notation "- x" := (fneg x) : f64_scope.
Infix "<=?" := fleb : f64_scope.
Infix "<?" := fltb : f64_scope.

(** *** Real numbers

    The exact arithmetic that [float64] approximates.  [ln] and [Rpower]
    are the mathematical functions at positive arguments; what the code
    does at a zero argument or divisor is a matter of IEEE 754 and is
    read on the binary64 instance below, not here. *)

Definition Rleb (x y : R) : bool := if Rle_dec x y then true else false.
Definition Rltb (x y : R) : bool := if Rlt_dec x y then true else false.

#[export] Instance Float64_R : Float64 R := {
  f0 := 0%R;
  f1 := 1%R;
  f40 := 40%R;
  fadd := Rplus;
  fsub := Rminus;
  fmul := Rmult;
  fdiv := Rdiv;
  fneg := Ropp;
  fleb := Rleb;
  fltb := Rltb;
  of_len := INR
}.

#[export] Instance MathLib_R : MathLib R := {
  Log := ln;
  Pow := Rpower
}.

(** *** IEEE 754 binary64 *)

(** [float64(n)] for a length [n]: counting up from [0.0] by [1.0] is exact
    for every [n] below [2^53], far above any slice length. *)
Fixpoint float_of_len (n : nat) : float :=
  match n with
  | O => PrimFloat.zero
  | S m => PrimFloat.add (float_of_len m) PrimFloat.one
  end.

#[export] Instance Float64_float : Float64 float := {
  f0 := PrimFloat.zero;
  f1 := PrimFloat.one;
  f40 := 40%float;
  fadd := PrimFloat.add;
  fsub := PrimFloat.sub;
  fmul := PrimFloat.mul;
  fdiv := PrimFloat.div;
  fneg := PrimFloat.opp;
  fleb := PrimFloat.leb;
  fltb := PrimFloat.ltb;
  of_len := float_of_len
}.

(** Go's [math.Log] and [math.Pow] on [float64].  The package
    documentation fixes their results at special arguments:
    [Log(0) = -Inf], and [Pow(+-0, y) = +0] for finite [y > 0] that is not
    an odd integer, which covers every [y] strictly between [0] and [1].
    Everywhere else the result is that of [log] and [pow], left open. *)
Definition GoMath (log : float -> float) (pow : float -> float -> float) :
    MathLib float := {|
  Log := fun x =>
    if PrimFloat.eqb x PrimFloat.zero then PrimFloat.neg_infinity else log x;
  Pow := fun x y =>
    if PrimFloat.eqb x PrimFloat.zero && PrimFloat.ltb PrimFloat.zero y
       && PrimFloat.ltb y PrimFloat.one
    then PrimFloat.zero
    else pow x y
|}.

(** ** The programs *)

Section Programs.

Context {F : Type} {num : Float64 F} {math : MathLib F}.

Local Open Scope string_scope.
Local Open Scope list_scope.
Local Open Scope f64_scope.

(** [type State struct { state string; T float64 }] *)
Record State : Type := mkState {
  state : string;
  T : F
}.

(** *** The random source

    [rand.Float64()] reads and advances the global generator of
    [math/rand].  The generator is a sequence [rand : nat -> F] of uniform
    draws and the number [k] of draws made so far; a function that draws
    takes [k] and returns the new count. *)
Definition Rand : Type := nat -> F.

(** *** Helper functions, the same text in the three programs *)

(** [SumOfTinState]: [sum := 0.0; for _, s := range states { sum += s.T }]. *)
Definition SumOfTinState (states : list State) : F :=
  fold_left (fun sum s => sum + T s) states f0.

(** [InverseCDFExponential]: [(-val) * math.Log(1-u)]. *)
Definition InverseCDFExponential (u val : F) : F :=
  (- val) * Log (f1 - u).

(** [NextState]. *)
Definition NextState (st : string) : string :=
  if String.eqb st "disconnect" then "connect" else "disconnect".

(** [InitState]: one draw, compared with [T0 / (T1 + T0)]. *)
Definition InitState (rand : Rand) (expectedValueT0 expectedValueT1 : F)
    (k : nat) : string * nat :=
  let p0 := expectedValueT0 / (expectedValueT1 + expectedValueT0) in
  let u := rand k in
  (if u <=? p0 then "disconnect" else "connect", S k).

(** [Pareto]: one draw [u], result [xm / math.Pow(u, 1.0/alpha)]. *)
Definition Pareto (rand : Rand) (alpha xm : F) (k : nat) : F * nat :=
  let u := rand k in
  (xm / Pow u (f1 / alpha), S k).

(** *** The download simulator

    [var remainingSize float64] is a package-level variable that
    [DownloadFile] updates and [SimulateDownload] and [main] read, and both
    functions print.  A computation [Prog A] takes the value of
    [remainingSize] and returns its result, the new value of
    [remainingSize] and the lines it printed. *)
Inductive Event : Type :=
| PrintState (i : nat) (st : string) (t : F)
| PrintDownloading (value speed : F).

Definition Prog (A : Type) : Type := F -> A * F * list Event.

Definition ret {A : Type} (a : A) : Prog A := fun g => (a, g, []).

Definition bind {A B : Type} (m : Prog A) (k : A -> Prog B) : Prog B :=
  fun g =>
    let '(a, g1, o1) := m g in
    let '(b, g2, o2) := k a g1 in
    (b, g2, o1 ++ o2).

Definition getRemainingSize : Prog F := fun g => (g, g, []).
Definition setRemainingSize (v : F) : Prog unit := fun _ => (tt, v, []).
Definition printf (e : Event) : Prog unit := fun g => (tt, g, [e]).

(** The value of [remainingSize] after running [m], and what [m] printed. *)
Definition finalSize {A : Type} (m : Prog A) (g : F) : F := snd (fst (m g)).
Definition printed {A : Type} (m : Prog A) (g : F) : list Event := snd (m g).

Local Notation "x <- m ;; k" := (bind m (fun x => k))
  (at level 61, m at next level, right associativity).
Local Notation "m ;; k" := (bind m (fun _ => k))
  (at level 61, right associativity).

(** [DownloadFile]: prints, then [remainingSize -= (speed * value)], and
    returns the new [remainingSize]. *)
Definition DownloadFile (value speed : F) : Prog F :=
  printf (PrintDownloading value speed) ;;
  g <- getRemainingSize ;;
  setRemainingSize (g - speed * value) ;;
  getRemainingSize.

(** [SimulateDownload]: [for i, s := range states], from index [i] on. *)
Fixpoint SimulateDownload_from (i : nat) (states : list State)
    (wifiSpeed mobileSpeed : F) : Prog unit :=
  match states with
  | [] => ret tt
  | s :: rest =>
      printf (PrintState (i + 1) (state s) (T s)) ;;
      (if String.eqb (state s) "Connect"
       then let totalSpeed := wifiSpeed + mobileSpeed in
            DownloadFile (T s) totalSpeed
       else DownloadFile (T s) mobileSpeed) ;;
      g <- getRemainingSize ;;
      if g <=? f0 then ret tt
      else SimulateDownload_from (S i) rest wifiSpeed mobileSpeed
  end.

Definition SimulateDownload (states : list State)
    (wifiSpeed mobileSpeed : F) : Prog unit :=
  SimulateDownload_from 0 states wifiSpeed mobileSpeed.

(** In [main]: [remainingSize = totalFileSizeMb], then (after the sequence
    is generated) [SimulateDownload(states, wifiSpeed, mobileSpeed)]. *)
Definition main_download (totalFileSizeMb : F) (states : list State)
    (wifiSpeed mobileSpeed : F) : Prog unit :=
  setRemainingSize totalFileSizeMb ;;
  SimulateDownload states wifiSpeed mobileSpeed.

(** In [main]: [if remainingSize > 0] the download is incomplete, else it
    is complete. *)
Definition download_complete (remainingSize : F) : bool :=
  negb (f0 <? remainingSize).

(** *** MeasureBandwidth (third program) *)

(** The accumulation loop of [MeasureBandwidth]: an interval whose label is
    neither ["Connect"] nor ["Disconnect"] adds nothing. *)
Definition totalBandwidth (states : list State) (wifiSpeed mobileSpeed : F) : F :=
  fold_left
    (fun totalb s =>
       if String.eqb (state s) "Connect" then totalb + (wifiSpeed + mobileSpeed)
       else if String.eqb (state s) "Disconnect" then totalb + mobileSpeed
       else totalb)
    states f0.

(** [avgBandwidth := totalb / float64(len(states))]. *)
Definition avgBandwidth (states : list State) (wifiSpeed mobileSpeed : F) : F :=
  totalBandwidth states wifiSpeed mobileSpeed / of_len (List.length states).

(** [MeasureBandwidth]: [1] when the average is above [40], else [0]. *)
Definition MeasureBandwidth (states : list State) (wifiSpeed mobileSpeed : F) : nat :=
  if f40 <? avgBandwidth states wifiSpeed mobileSpeed then 1 else 0.

(** *** Sequences of intervals *)

(** No two neighbours carry the same label. *)
Fixpoint alternating (states : list State) : bool :=
  match states with
  | a :: rest =>
      match rest with
      | b :: _ => negb (String.eqb (state a) (state b)) && alternating rest
      | [] => true
      end
  | [] => true
  end.

End Programs.

Arguments State F : clear implicits.
Arguments Event F : clear implicits.
Arguments Rand F : clear implicits.

(** ** GenerateBand

    The loop [for { ... }] has no bound of its own: it ends when the dwell
    times drawn so far reach [Ts].  [fuel] counts the iterations allowed;
    the result is [None] when they do not suffice, and otherwise the
    sequence together with the new count of draws. *)

(** *** with_2.4g/second_method.go (the first program has the same text) *)
Module SecondMethod.
Section Gen.

Context {F : Type} {num : Float64 F} {math : MathLib F}.
Variable rand : Rand F.
Variables expectedValueT0 expectedValueT1 Ts : F.

Local Open Scope string_scope.
Local Open Scope list_scope.
Local Open Scope f64_scope.

Fixpoint GenerateBand_loop (fuel : nat) (states : list (State F))
    (currentState : string) (k : nat) : option (list (State F) * nat) :=
  match fuel with
  | O => None
  | S fuel' =>
      if String.eqb currentState "disconnect" then
        let t0 := InverseCDFExponential (rand k) expectedValueT0 in
        let states := states ++ [mkState "Disconnect" t0] in
        if Ts <=? SumOfTinState states then Some (states, S k)
        else GenerateBand_loop fuel' states (NextState currentState) (S k)
      else
        let t1 := InverseCDFExponential (rand k) expectedValueT1 in
        if Ts <=? SumOfTinState states + t1 then
          let downloadable := Ts - SumOfTinState states in
          Some (states ++ [mkState "Connect" downloadable], S k)
        else GenerateBand_loop fuel' (states ++ [mkState "Connect" t1])
               (NextState currentState) (S k)
  end.

Definition GenerateBand (fuel : nat) (initialState : string) (k : nat) :
    option (list (State F) * nat) :=
  GenerateBand_loop fuel [] initialState k.

End Gen.
End SecondMethod.

(** *** The third program (the one with [MeasureBandwidth]) *)
Module Clamped.
Section Gen.

Context {F : Type} {num : Float64 F} {math : MathLib F}.
Variable rand : Rand F.
Variables expectedValueT0 expectedValueT1 Ts : F.

Local Open Scope string_scope.
Local Open Scope list_scope.
Local Open Scope f64_scope.

Fixpoint GenerateBand_loop (fuel : nat) (states : list (State F))
    (currentState : string) (k : nat) : option (list (State F) * nat) :=
  match fuel with
  | O => None
  | S fuel' =>
      if String.eqb currentState "disconnect" then
        let t0 := InverseCDFExponential (rand k) expectedValueT0 in
        let t0 := if Ts <? t0 then Ts else t0 in
        if Ts <=? SumOfTinState states + t0 then
          let remaining := Ts - SumOfTinState states in
          Some (if f0 <? remaining
                then states ++ [mkState "Disconnect" remaining]
                else states, S k)
        else GenerateBand_loop fuel' (states ++ [mkState "Disconnect" t0])
               (NextState currentState) (S k)
      else
        let t1 := InverseCDFExponential (rand k) expectedValueT1 in
        let t1 := if Ts <? t1 then Ts else t1 in
        if Ts <=? SumOfTinState states + t1 then
          let remaining := Ts - SumOfTinState states in
          Some (if f0 <? remaining
                then states ++ [mkState "Connect" remaining]
                else states, S k)
        else GenerateBand_loop fuel' (states ++ [mkState "Connect" t1])
               (NextState currentState) (S k)
  end.

Definition GenerateBand (fuel : nat) (initialState : string) (k : nat) :
    option (list (State F) * nat) :=
  GenerateBand_loop fuel [] initialState k.

End Gen.
End Clamped.

(** ** main of the third program

    The batch loop: each iteration draws a file size, generates a
    sequence, flags it and simulates the download, and then adds to the
    counts.  The local constants of [main] are the variables below;
    [fuel] bounds each call of [GenerateBand].  The state of the loop is
    the count of draws, the variable [remainingSize] and the three
    accumulators; the lines [main] itself prints are not part of it. *)
Section Main.

Context {F : Type} {num : Float64 F} {math : MathLib F}.

Local Open Scope list_scope.
Local Open Scope f64_scope.

Variable rand : Rand F.
Variables expectedValueSession expectedValueT0 expectedValueT1 : F.
Variables wifiSpeed mobileSpeed alpha xm : F.
Variable fuel : nat.

(** [AvgRemainFailure], [deadline] and [results]. *)
Record Batch : Type := mkBatch {
  AvgRemainFailure : F;
  deadline : nat;
  results : list nat
}.

(** The body of [for i := 1; i <= iterations; i++]. *)
Definition main_iteration (k : nat) (remainingSize : F) (b : Batch) :
    option (nat * F * Batch) :=
  let Ts := expectedValueSession in
  let '(fileSizeMB, k) := Pareto rand alpha xm k in
  let totalFileSizeMb := fileSizeMB * of_len 8 in
  let remainingSize := totalFileSizeMb in
  let '(initialState, k) := InitState rand expectedValueT0 expectedValueT1 k in
  match Clamped.GenerateBand rand expectedValueT0 expectedValueT1 Ts
          fuel initialState k with
  | None => None
  | Some (states, k) =>
      let flag := MeasureBandwidth states wifiSpeed mobileSpeed in
      let results := results b ++ [flag] in
      let remainingSize :=
        finalSize (SimulateDownload states wifiSpeed mobileSpeed)
          remainingSize in
      if f0 <? remainingSize
      then Some (k, remainingSize,
                 mkBatch (AvgRemainFailure b + remainingSize)
                   (deadline b + 1) results)
      else Some (k, remainingSize,
                 mkBatch (AvgRemainFailure b) (deadline b) results)
  end.

Fixpoint main_loop (iterations : nat) (k : nat) (remainingSize : F)
    (b : Batch) : option (nat * F * Batch) :=
  match iterations with
  | O => Some (k, remainingSize, b)
  | S n =>
      match main_iteration k remainingSize b with
      | None => None
      | Some (k', remainingSize', b') => main_loop n k' remainingSize' b'
      end
  end.

(** What [main] computes after the loop: when [AvgRemainFailure > 0], the
    average remaining size and the deadline miss ratio, both over
    [iterations]; and always the ratio of flagged iterations. *)
Definition main_summary (iterations : nat) (b : Batch) : option (F * F) * F :=
  (if f0 <? AvgRemainFailure b
   then Some (AvgRemainFailure b / of_len iterations,
              of_len (deadline b) / of_len iterations)
   else None,
   of_len (fold_left Nat.add (results b) 0)
   / of_len (List.length (results b))).

(** [AvgRemainFailure := 0.0], [deadline := 0], [results := []int{}]. *)
Definition main_start : Batch := mkBatch f0 0 [].

End Main.

Arguments Batch F : clear implicits.

(** ** Vocabulary of the statements *)

Section Vocabulary.

Context {F : Type} {num : Float64 F}.

Local Open Scope string_scope.
Local Open Scope list_scope.
Local Open Scope f64_scope.

(** The speed [SimulateDownload] passes to [DownloadFile] for an interval. *)
Definition speed_of (s : State F) (wifiSpeed mobileSpeed : F) : F :=
  if String.eqb (state s) "Connect" then wifiSpeed + mobileSpeed
  else mobileSpeed.

(** What one iteration of the loop prints. *)
Definition lines_of (i : nat) (s : State F) (wifiSpeed mobileSpeed : F) :
    list (Event F) :=
  [PrintState (i + 1) (state s) (T s);
   PrintDownloading (T s) (speed_of s wifiSpeed mobileSpeed)].

(** The label of the last interval, if there is one. *)
Fixpoint last_label (states : list (State F)) : option string :=
  match states with
  | [] => None
  | a :: rest =>
      match rest with
      | [] => Some (state a)
      | _ :: _ => last_label rest
      end
  end.

(** The label [GenerateBand] writes while [currentState] is [c]. *)
Definition label_of (c : string) : string :=
  if String.eqb c "disconnect" then "Disconnect" else "Connect".

(** The loop invariant: the intervals written so far alternate, and the
    last of them does not carry the label about to be written. *)
Definition alternation_inv (states : list (State F)) (c : string) : Prop :=
  alternating states = true /\
  forall y, last_label states = Some y -> String.eqb y (label_of c) = false.

(** What a run of the loop adds to the intervals it starts from: labels
    among the two capitalised ones, the first of them the label of the
    current state, and at most one interval per draw. *)
Definition added_shape (c : string) (k : nat) (added : list (State F))
    (k' : nat) (slack : nat) : Prop :=
  Forall (fun s => state s = "Connect" \/ state s = "Disconnect") added /\
  (forall s rest, added = s :: rest -> state s = label_of c) /\
  k + List.length added <= k' <= k + List.length added + slack.

(** What [SimulateDownload] prints for the intervals [states], the first
    of which has index [i]. *)
Fixpoint lines_from (i : nat) (states : list (State F))
    (wifiSpeed mobileSpeed : F) : list (Event F) :=
  match states with
  | [] => []
  | s :: rest =>
      lines_of i s wifiSpeed mobileSpeed ++
      lines_from (S i) rest wifiSpeed mobileSpeed
  end.

(** The amount downloaded over the intervals [states]. *)
Fixpoint downloaded (states : list (State F)) (wifiSpeed mobileSpeed : F) : F :=
  match states with
  | [] => f0
  | s :: rest =>
      speed_of s wifiSpeed mobileSpeed * T s +
      downloaded rest wifiSpeed mobileSpeed
  end.

(** [remainingSize] after the intervals [states] have each subtracted
    their download from [g], in order. *)
Definition payload_after (states : list (State F))
    (wifiSpeed mobileSpeed g : F) : F :=
  fold_left (fun g s => g - speed_of s wifiSpeed mobileSpeed * T s) states g.

(** The number of intervals labelled ["Connect"]. *)
Definition count_connect (states : list (State F)) : nat :=
  List.length (filter (fun s => String.eqb (state s) "Connect") states).

End Vocabulary.

(** The source of draws that always returns [0.5]. *)
Definition rand_half : Rand R := fun _ => (1 / 2)%R.

(** The source of draws that always returns [0]. *)
Definition rand_zero : Rand float := fun _ => PrimFloat.zero.

(** [AvgRemainFailure] is a sum of positive amounts, one per miss. *)
Definition batch_inv (b : Batch R) : Prop :=
  (0 <= AvgRemainFailure b)%R /\
  ((0 < AvgRemainFailure b)%R <-> 0 < deadline b).

(** ** Facts that hold for every number type *)

Section SimulatorFacts.

Context {F : Type} {num : Float64 F}.

Local Open Scope string_scope.
Local Open Scope list_scope.
Local Open Scope f64_scope.



Lemma DownloadFile_run (value speed g : F) :
  DownloadFile value speed g =
  (g - speed * value, g - speed * value, [PrintDownloading value speed]).
Proof. reflexivity. Qed.

Lemma SimulateDownload_from_nil (i : nat) (w m g : F) :
  SimulateDownload_from i [] w m g = (tt, g, []).
Proof. reflexivity. Qed.

Lemma SimulateDownload_from_cons (i : nat) (s : State F) (rest : list (State F))
    (w m g : F) :
  SimulateDownload_from i (s :: rest) w m g =
  let r := g - speed_of s w m * T s in
  if r <=? f0 then (tt, r, lines_of i s w m)
  else let '(u, g', o) := SimulateDownload_from (S i) rest w m r in
       (u, g', lines_of i s w m ++ o).
Proof.
  unfold lines_of, speed_of. cbn [SimulateDownload_from].
  unfold bind, printf, getRemainingSize, ret.
  destruct (String.eqb (state s) "Connect"); rewrite DownloadFile_run; cbn;
    match goal with |- context [?a <=? f0] => destruct (a <=? f0) end; cbn;
    try reflexivity;
    match goal with |- context [SimulateDownload_from ?j ?l ?x ?y ?z] =>
      destruct (SimulateDownload_from j l x y z) as [[[] g'] o] end;
    reflexivity.
Qed.

(** Once a prefix of the sequence has brought [remainingSize] to [<= 0],
    whatever follows the prefix is not run. *)
Lemma SimulateDownload_from_stops (pre post : list (State F)) :
  forall (i : nat) (w m g : F),
    pre <> [] ->
    (finalSize (SimulateDownload_from i pre w m) g <=? f0) = true ->
    SimulateDownload_from i (pre ++ post) w m g =
    SimulateDownload_from i pre w m g.
Proof.
  induction pre as [|s pre IH]; intros i w m g Hne Hfin; [congruence|].
  unfold finalSize in Hfin. rewrite <- app_comm_cons.
  rewrite SimulateDownload_from_cons in Hfin.
  rewrite !SimulateDownload_from_cons. cbv zeta in *.
  destruct (g - speed_of s w m * T s <=? f0) eqn:Hr; [reflexivity|].
  destruct pre as [|s' pre'].
  - rewrite SimulateDownload_from_nil in Hfin. cbn in Hfin. congruence.
  - rewrite IH; [reflexivity|discriminate|].
    unfold finalSize.
    destruct (SimulateDownload_from (S i) (s' :: pre') w m
                (g - speed_of s w m * T s)) as [[u g'] o].
    exact Hfin.
Qed.

(** A run of [main_download] does not depend on what [remainingSize] held
    before: the assignment overwrites it. *)
Lemma main_download_resets (p : F) (states : list (State F)) (w m g : F) :
  main_download p states w m g = SimulateDownload states w m p.
Proof.
  unfold main_download, bind, setRemainingSize.
  destruct (SimulateDownload states w m p) as [[u g'] o]. reflexivity.
Qed.

End SimulatorFacts.

Section AlternationFacts.

Context {F : Type} {num : Float64 F} {math : MathLib F}.

Local Open Scope string_scope.
Local Open Scope list_scope.



Lemma last_label_snoc (l : list (State F)) (x : State F) :
  last_label (l ++ [x]) = Some (state x).
Proof.
  induction l as [|a l IH]; [reflexivity|].
  cbn [app last_label]. destruct l; [reflexivity|exact IH].
Qed.

Lemma alternating_snoc (l : list (State F)) (x : State F) :
  alternating (l ++ [x]) =
  alternating l &&
  match last_label l with
  | Some y => negb (String.eqb y (state x))
  | None => true
  end.
Proof.
  induction l as [|a l IH]; [reflexivity|].
  destruct l as [|b l].
  - cbn. now rewrite !andb_true_r.
  - change (alternating ((a :: b :: l) ++ [x]))
      with (negb (String.eqb (state a) (state b)) && alternating ((b :: l) ++ [x])).
    rewrite IH.
    change (alternating (a :: b :: l))
      with (negb (String.eqb (state a) (state b)) && alternating (b :: l)).
    change (last_label (a :: b :: l)) with (last_label (b :: l)).
    now rewrite andb_assoc.
Qed.

Lemma label_of_NextState (c : string) :
  String.eqb (label_of c) (label_of (NextState c)) = false.
Proof.
  unfold label_of, NextState.
  destruct (String.eqb c "disconnect"); reflexivity.
Qed.


Lemma alternation_inv_nil (c : string) : alternation_inv (F := F) [] c.
Proof. split; [reflexivity|discriminate]. Qed.

Lemma alternation_inv_snoc (states : list (State F)) (c : string) (t : F) :
  alternation_inv states c ->
  alternating (states ++ [mkState (label_of c) t]) = true /\
  alternation_inv (states ++ [mkState (label_of c) t]) (NextState c).
Proof.
  intros [Halt Hlast].
  assert (Hsnoc : alternating (states ++ [mkState (label_of c) t]) = true).
  { rewrite alternating_snoc, Halt. cbn [state andb].
    destruct (last_label states) as [y|]; [|reflexivity].
    now rewrite (Hlast y eq_refl). }
  split; [exact Hsnoc|]. split; [exact Hsnoc|].
  intros y. rewrite last_label_snoc. cbn [state]. intros [= <-].
  apply label_of_NextState.
Qed.

Variable rand : Rand F.
Variables expectedValueT0 expectedValueT1 Ts : F.

Lemma Clamped_loop_alternating (fuel : nat) :
  forall (states : list (State F)) (c : string) (k : nat)
         (r : list (State F) * nat),
    alternation_inv states c ->
    Clamped.GenerateBand_loop rand expectedValueT0 expectedValueT1 Ts
      fuel states c k = Some r ->
    alternating (fst r) = true.
Proof.
  induction fuel as [|fuel IH]; intros states c k r Hinv Hrun; [discriminate|].
  cbn [Clamped.GenerateBand_loop] in Hrun.
  pose proof (fun t => alternation_inv_snoc t Hinv) as Hsnoc.
  unfold label_of in Hsnoc.
  destruct (String.eqb c "disconnect");
    match type of Hrun with
    | (if ?b then _ else _) = _ => destruct b
    end.
  1,3: injection Hrun as <-; cbn [fst];
       match goal with |- context [if ?b then _ else _] => destruct b end;
       [apply Hsnoc | apply Hinv].
  all: eapply IH; [|exact Hrun]; apply Hsnoc.
Qed.

Lemma SecondMethod_loop_alternating (fuel : nat) :
  forall (states : list (State F)) (c : string) (k : nat)
         (r : list (State F) * nat),
    alternation_inv states c ->
    SecondMethod.GenerateBand_loop rand expectedValueT0 expectedValueT1 Ts
      fuel states c k = Some r ->
    alternating (fst r) = true.
Proof.
  induction fuel as [|fuel IH]; intros states c k r Hinv Hrun; [discriminate|].
  cbn [SecondMethod.GenerateBand_loop] in Hrun.
  pose proof (fun t => alternation_inv_snoc t Hinv) as Hsnoc.
  unfold label_of in Hsnoc.
  destruct (String.eqb c "disconnect");
    match type of Hrun with
    | (if ?b then _ else _) = _ => destruct b
    end.
  1,3: injection Hrun as <-; cbn [fst]; apply Hsnoc.
  all: eapply IH; [|exact Hrun]; apply Hsnoc.
Qed.

End AlternationFacts.

(** C3. In every sequence [GenerateBand] returns, whatever the initial
    state, the parameters and the draws, neighbouring intervals carry
    different labels: no two adjacent ones are both ["Connect"] or both
    ["Disconnect"]. *)
Theorem GenerateBand_alternates {F : Type} {num : Float64 F} {math : MathLib F}
    (rand : Rand F) (expectedValueT0 expectedValueT1 Ts : F)
    (fuel : nat) (initialState : string) (k k' : nat)
    (states : list (State F)) :
  Clamped.GenerateBand rand expectedValueT0 expectedValueT1 Ts
    fuel initialState k = Some (states, k') ->
  alternating states = true.
Proof.
  intros Hrun.
  change states with (fst (states, k')).
  eapply Clamped_loop_alternating; [|exact Hrun].
  apply alternation_inv_nil.
Qed.

(** Fuel beyond what a run needs does not change its result. *)
Lemma Clamped_loop_fuel_mono {F : Type} {num : Float64 F} {math : MathLib F}
    (rand : Rand F) (T0 T1 Ts : F) (fuel : nat) :
  forall (n : nat) (states : list (State F)) (c : string) (k : nat)
         (r : list (State F) * nat),
    Clamped.GenerateBand_loop rand T0 T1 Ts fuel states c k = Some r ->
    Clamped.GenerateBand_loop rand T0 T1 Ts (fuel + n) states c k = Some r.
Proof.
  induction fuel as [|fuel IH]; intros n states c k r Hrun; [discriminate|].
  cbn [Clamped.GenerateBand_loop Nat.add] in *.
  destruct (String.eqb c "disconnect");
    match type of Hrun with
    | (if ?b then _ else _) = _ => destruct b
    end; try exact Hrun; now apply IH.
Qed.

Lemma SecondMethod_loop_fuel_mono {F : Type} {num : Float64 F}
    {math : MathLib F} (rand : Rand F) (T0 T1 Ts : F) (fuel : nat) :
  forall (n : nat) (states : list (State F)) (c : string) (k : nat)
         (r : list (State F) * nat),
    SecondMethod.GenerateBand_loop rand T0 T1 Ts fuel states c k = Some r ->
    SecondMethod.GenerateBand_loop rand T0 T1 Ts (fuel + n) states c k = Some r.
Proof.
  induction fuel as [|fuel IH]; intros n states c k r Hrun; [discriminate|].
  cbn [SecondMethod.GenerateBand_loop Nat.add] in *.
  destruct (String.eqb c "disconnect");
    match type of Hrun with
    | (if ?b then _ else _) = _ => destruct b
    end; try exact Hrun; now apply IH.
Qed.

(** The sequence returned does not depend on the fuel that was enough. *)
Lemma Clamped_GenerateBand_unique {F : Type} {num : Float64 F}
    {math : MathLib F} (rand : Rand F) (T0 T1 Ts : F) (fuel1 fuel2 : nat)
    (initialState : string) (k : nat) (r1 r2 : list (State F) * nat) :
  Clamped.GenerateBand rand T0 T1 Ts fuel1 initialState k = Some r1 ->
  Clamped.GenerateBand rand T0 T1 Ts fuel2 initialState k = Some r2 ->
  r1 = r2.
Proof.
  unfold Clamped.GenerateBand. intros H1 H2.
  apply (Clamped_loop_fuel_mono _ _ _ _ _ fuel2) in H1.
  apply (Clamped_loop_fuel_mono _ _ _ _ _ fuel1) in H2.
  rewrite Nat.add_comm in H2. congruence.
Qed.

Lemma SecondMethod_GenerateBand_unique {F : Type} {num : Float64 F}
    {math : MathLib F} (rand : Rand F) (T0 T1 Ts : F) (fuel1 fuel2 : nat)
    (initialState : string) (k : nat) (r1 r2 : list (State F) * nat) :
  SecondMethod.GenerateBand rand T0 T1 Ts fuel1 initialState k = Some r1 ->
  SecondMethod.GenerateBand rand T0 T1 Ts fuel2 initialState k = Some r2 ->
  r1 = r2.
Proof.
  unfold SecondMethod.GenerateBand. intros H1 H2.
  apply (SecondMethod_loop_fuel_mono _ _ _ _ _ fuel2) in H1.
  apply (SecondMethod_loop_fuel_mono _ _ _ _ _ fuel1) in H2.
  rewrite Nat.add_comm in H2. congruence.
Qed.

(** The second method appends an interval on every path out of the loop. *)
Lemma SecondMethod_loop_nonempty {F : Type} {num : Float64 F}
    {math : MathLib F} (rand : Rand F) (T0 T1 Ts : F) (fuel : nat) :
  forall (states : list (State F)) (c : string) (k : nat)
         (r : list (State F) * nat),
    SecondMethod.GenerateBand_loop rand T0 T1 Ts fuel states c k = Some r ->
    fst r <> [].
Proof.
  induction fuel as [|fuel IH]; intros states c k r Hrun; [discriminate|].
  cbn [SecondMethod.GenerateBand_loop] in Hrun.
  destruct (String.eqb c "disconnect");
    match type of Hrun with
    | (if ?b then _ else _) = _ => destruct b
    end;
    try (injection Hrun as <-; cbn [fst]; intros Hnil;
         now apply app_eq_nil in Hnil as [_ Hnil]);
    eapply IH; exact Hrun.
Qed.

(** ** Facts over the real numbers *)

Section RealFacts.

Local Open Scope R_scope.

Lemma Rleb_true (x y : R) : x <= y -> Rleb x y = true.
Proof. intros H. unfold Rleb. destruct (Rle_dec x y); [reflexivity|lra]. Qed.

Lemma Rleb_false (x y : R) : y < x -> Rleb x y = false.
Proof. intros H. unfold Rleb. destruct (Rle_dec x y); [lra|reflexivity]. Qed.

Lemma Rltb_true (x y : R) : x < y -> Rltb x y = true.
Proof. intros H. unfold Rltb. destruct (Rlt_dec x y); [reflexivity|lra]. Qed.

Lemma Rltb_false (x y : R) : y <= x -> Rltb x y = false.
Proof. intros H. unfold Rltb. destruct (Rlt_dec x y); [lra|reflexivity]. Qed.

Lemma Rleb_case (x y : R) :
  (x <= y /\ Rleb x y = true) \/ (y < x /\ Rleb x y = false).
Proof.
  destruct (Rle_lt_dec x y); [left|right]; split; auto using Rleb_true, Rleb_false.
Qed.

Lemma Rltb_case (x y : R) :
  (x < y /\ Rltb x y = true) \/ (y <= x /\ Rltb x y = false).
Proof.
  destruct (Rlt_le_dec x y); [left|right]; split; auto using Rltb_true, Rltb_false.
Qed.

Lemma SumOfTinState_snoc (states : list (State R)) (x : State R) :
  SumOfTinState (states ++ [x]) = SumOfTinState states + T x.
Proof. unfold SumOfTinState. now rewrite fold_left_app. Qed.

Lemma SumOfTinState_nil : SumOfTinState (F:=R) [] = 0.
Proof. reflexivity. Qed.

(** A dwell time is not negative when the mean is not and [u] is a draw
    of [rand.Float64()], which lies in [[0, 1)]. *)
Lemma InverseCDFExponential_nonneg (u val : R) :
  0 <= val -> 0 <= u < 1 -> 0 <= InverseCDFExponential u val.
Proof.
  intros Hval [Hu0 Hu1]. unfold InverseCDFExponential. cbn.
  assert (Hln : ln (1 - u) <= 0).
  { rewrite <- ln_1. destruct (Req_dec u 0) as [->|Hne].
    - rewrite Rminus_0_r. apply Rle_refl.
    - left. apply ln_increasing; lra. }
  nra.
Qed.

Lemma InverseCDFExponential_half (val : R) :
  InverseCDFExponential (1 / 2) val = val * ln 2.
Proof.
  unfold InverseCDFExponential. cbn.
  replace (1 - 1 / 2) with (/ 2) by lra.
  rewrite ln_Rinv by lra. ring.
Qed.

Lemma ln_2_lt_1 : ln 2 < 1.
Proof.
  rewrite <- (ln_exp 1). apply ln_increasing; [lra|].
  pose proof (exp_ineq1 1 ltac:(lra)). lra.
Qed.

Lemma nat_above (x : R) : exists n : nat, x <= INR n.
Proof.
  destruct (Rle_lt_dec x 0) as [Hx|Hx].
  - exists 0%nat. cbn. exact Hx.
  - destruct (archimed x) as [Hup _].
    exists (Z.to_nat (up x)).
    rewrite INR_IZR_INZ, Z2Nat.id.
    + lra.
    + apply le_IZR. lra.
Qed.

End RealFacts.

Ltac real_ops :=
  cbn [fleb fltb fadd fsub fmul fdiv fneg f0 f1 f40 of_len Float64_R
       Log Pow MathLib_R] in *.

(** Decide one order test of the code by a case split on the reals. *)
Ltac split_test H :=
  match type of H with
  | context [Rleb ?x ?y] =>
      let Hc := fresh "Hle" in let E := fresh "E" in
      destruct (Rleb_case x y) as [[Hc E]|[Hc E]]; rewrite E in H
  | context [Rltb ?x ?y] =>
      let Hc := fresh "Hlt" in let E := fresh "E" in
      destruct (Rltb_case x y) as [[Hc E]|[Hc E]]; rewrite E in H
  end.

Section ClampedReal.

Local Open Scope R_scope.

Variable rand : Rand R.
Variables expectedValueT0 expectedValueT1 Ts : R.

Local Abbreviation loop :=
  (Clamped.GenerateBand_loop rand expectedValueT0 expectedValueT1 Ts).

(** While the loop runs the intervals written so far sum to less than
    [Ts]; the last interval then fills what is left. *)
Lemma Clamped_loop_sum (fuel : nat) :
  forall (states : list (State R)) (c : string) (k : nat)
         (r : list (State R) * nat),
    SumOfTinState states < Ts ->
    loop fuel states c k = Some r ->
    SumOfTinState (fst r) = Ts /\ fst r <> [].
Proof.
  induction fuel as [|fuel IH]; intros states c k r Hsum Hrun; [discriminate|].
  cbn [Clamped.GenerateBand_loop] in Hrun. real_ops.
  destruct (String.eqb c "disconnect").
  - split_test Hrun.
    + rewrite Rltb_true in Hrun by lra. injection Hrun as <-. cbn [fst].
      rewrite SumOfTinState_snoc. cbn [T]. split; [lra|].
      intros Hnil. now apply app_eq_nil in Hnil as [_ Hnil].
    + eapply IH; [|exact Hrun]. rewrite SumOfTinState_snoc. cbn [T]. lra.
  - split_test Hrun.
    + rewrite Rltb_true in Hrun by lra. injection Hrun as <-. cbn [fst].
      rewrite SumOfTinState_snoc. cbn [T]. split; [lra|].
      intros Hnil. now apply app_eq_nil in Hnil as [_ Hnil].
    + eapply IH; [|exact Hrun]. rewrite SumOfTinState_snoc. cbn [T]. lra.
Qed.

(** With dwell times of at least [delta > 0] the loop ends: each
    iteration that does not leave the loop adds at least [delta]. *)
Lemma Clamped_loop_terminates (delta : R) :
  0 < delta ->
  (forall j, delta <= InverseCDFExponential (rand j) expectedValueT0 /\
             delta <= InverseCDFExponential (rand j) expectedValueT1) ->
  forall (n : nat) (states : list (State R)) (c : string) (k : nat),
    0 <= SumOfTinState states ->
    Ts - SumOfTinState states <= INR n * delta ->
    exists r, loop (S n) states c k = Some r.
Proof.
  intros Hdelta Hdwell.
  induction n as [|n IH]; intros states c k Hpos Hleft.
  - cbn [INR] in Hleft. cbn [Clamped.GenerateBand_loop]. real_ops.
    destruct (Hdwell k) as [H0 H1].
    destruct (String.eqb c "disconnect").
    + destruct (Rltb_case Ts (InverseCDFExponential (rand k) expectedValueT0))
        as [[Hc ->]|[Hc ->]];
        rewrite Rleb_true by lra; eauto.
    + destruct (Rltb_case Ts (InverseCDFExponential (rand k) expectedValueT1))
        as [[Hc ->]|[Hc ->]];
        rewrite Rleb_true by lra; eauto.
  - rewrite S_INR in Hleft.
    change (loop (S (S n)) states c k) with
      (if String.eqb c "disconnect" then
         let t0 := InverseCDFExponential (rand k) expectedValueT0 in
         let t0 := if Rltb Ts t0 then Ts else t0 in
         if Rleb Ts (SumOfTinState states + t0) then
           let remaining := Ts - SumOfTinState states in
           Some (if Rltb 0 remaining
                 then states ++ [mkState "Disconnect" remaining]
                 else states, S k)
         else loop (S n) (states ++ [mkState "Disconnect" t0])
                (NextState c) (S k)
       else
         let t1 := InverseCDFExponential (rand k) expectedValueT1 in
         let t1 := if Rltb Ts t1 then Ts else t1 in
         if Rleb Ts (SumOfTinState states + t1) then
           let remaining := Ts - SumOfTinState states in
           Some (if Rltb 0 remaining
                 then states ++ [mkState "Connect" remaining]
                 else states, S k)
         else loop (S n) (states ++ [mkState "Connect" t1])
                (NextState c) (S k)).
    cbv zeta.
    destruct (Hdwell k) as [H0 H1].
    destruct (String.eqb c "disconnect").
    + destruct (Rltb_case Ts (InverseCDFExponential (rand k) expectedValueT0))
        as [[Hc ->]|[Hc ->]].
      * rewrite Rleb_true by lra. eauto.
      * match goal with |- context [Rleb ?x ?y] =>
          destruct (Rleb_case x y) as [[Hd ->]|[Hd ->]] end; [eauto|].
        apply IH; rewrite SumOfTinState_snoc; cbn [T]; lra.
    + destruct (Rltb_case Ts (InverseCDFExponential (rand k) expectedValueT1))
        as [[Hc ->]|[Hc ->]].
      * rewrite Rleb_true by lra. eauto.
      * match goal with |- context [Rleb ?x ?y] =>
          destruct (Rleb_case x y) as [[Hd ->]|[Hd ->]] end; [eauto|].
        apply IH; rewrite SumOfTinState_snoc; cbn [T]; lra.
Qed.

End ClampedReal.

Section SecondMethodReal.

Local Open Scope R_scope.

Variable rand : Rand R.
Variables expectedValueT0 expectedValueT1 Ts : R.

Local Abbreviation loop :=
  (SecondMethod.GenerateBand_loop rand expectedValueT0 expectedValueT1 Ts).

Lemma SecondMethod_loop_terminates (delta : R) :
  0 < delta ->
  (forall j, delta <= InverseCDFExponential (rand j) expectedValueT0 /\
             delta <= InverseCDFExponential (rand j) expectedValueT1) ->
  forall (n : nat) (states : list (State R)) (c : string) (k : nat),
    Ts - SumOfTinState states <= INR n * delta ->
    exists r, loop (S n) states c k = Some r.
Proof.
  intros Hdelta Hdwell.
  induction n as [|n IH]; intros states c k Hleft.
  - cbn [INR] in Hleft. cbn [SecondMethod.GenerateBand_loop]. real_ops.
    destruct (Hdwell k) as [H0 H1].
    destruct (String.eqb c "disconnect").
    + rewrite SumOfTinState_snoc. cbn [T]. rewrite Rleb_true by lra. eauto.
    + rewrite Rleb_true by lra. eauto.
  - rewrite S_INR in Hleft.
    change (loop (S (S n)) states c k) with
      (if String.eqb c "disconnect" then
         let t0 := InverseCDFExponential (rand k) expectedValueT0 in
         let states := states ++ [mkState "Disconnect" t0] in
         if Rleb Ts (SumOfTinState states) then Some (states, S k)
         else loop (S n) states (NextState c) (S k)
       else
         let t1 := InverseCDFExponential (rand k) expectedValueT1 in
         if Rleb Ts (SumOfTinState states + t1) then
           let downloadable := Ts - SumOfTinState states in
           Some (states ++ [mkState "Connect" downloadable], S k)
         else loop (S n) (states ++ [mkState "Connect" t1])
                (NextState c) (S k)).
    cbv zeta.
    destruct (Hdwell k) as [H0 H1].
    destruct (String.eqb c "disconnect");
      match goal with |- context [Rleb ?x ?y] =>
        destruct (Rleb_case x y) as [[Hd ->]|[Hd ->]] end; eauto;
      apply IH; rewrite SumOfTinState_snoc in *; cbn [T] in *; lra.
Qed.

End SecondMethodReal.

(** In the third program, with [Ts > 0], the durations of the returned
    sequence sum to [Ts] exactly, whatever was drawn. *)
Lemma Clamped_GenerateBand_sum (rand : Rand R) (T0 T1 Ts : R) (fuel : nat)
    (initialState : string) (k k' : nat) (states : list (State R)) :
  (0 < Ts)%R ->
  Clamped.GenerateBand rand T0 T1 Ts fuel initialState k = Some (states, k') ->
  SumOfTinState states = Ts.
Proof.
  intros HTs Hrun.
  apply (Clamped_loop_sum _ _ _ _ _ _ _ (r := (states, k'))) in Hrun;
    [apply Hrun|exact HTs].
Qed.

(** In the third program, with [Ts = 0], means that are not negative and
    a draw in [[0, 1)], the returned sequence is empty. *)
Lemma Clamped_GenerateBand_zero (rand : Rand R) (T0 T1 : R) (fuel : nat)
    (initialState : string) (k : nat) :
  (0 <= T0)%R -> (0 <= T1)%R -> (0 <= rand k < 1)%R ->
  Clamped.GenerateBand rand T0 T1 0%R (S fuel) initialState k = Some ([], S k).
Proof.
  intros HT0 HT1 Hu.
  pose proof (InverseCDFExponential_nonneg HT0 Hu) as H0.
  pose proof (InverseCDFExponential_nonneg HT1 Hu) as H1.
  unfold Clamped.GenerateBand.
  cbn [Clamped.GenerateBand_loop]. real_ops.
  rewrite SumOfTinState_nil.
  destruct (String.eqb initialState "disconnect").
  - destruct (Rltb_case 0 (InverseCDFExponential (rand k) T0))
      as [[Hc ->]|[Hc ->]];
      rewrite Rleb_true by lra; rewrite Rltb_false by lra; reflexivity.
  - destruct (Rltb_case 0 (InverseCDFExponential (rand k) T1))
      as [[Hc ->]|[Hc ->]];
      rewrite Rleb_true by lra; rewrite Rltb_false by lra; reflexivity.
Qed.

(** Settle the order tests of a run on concrete numbers. *)
Ltac decide_tests :=
  pose proof ln_lt_2 as Hln_lo; pose proof ln_2_lt_1 as Hln_hi;
  repeat first
    [ rewrite Rleb_true by lra | rewrite Rleb_false by lra
    | rewrite Rltb_true by lra | rewrite Rltb_false by lra ].

Ltac run_band :=
  cbv beta delta [SecondMethod.GenerateBand Clamped.GenerateBand];
  cbn [SecondMethod.GenerateBand_loop Clamped.GenerateBand_loop
       String.eqb Ascii.eqb Bool.eqb NextState];
  rewrite ?InverseCDFExponential_half;
  unfold SumOfTinState; cbn [fold_left T app]; real_ops;
  decide_tests.

Section Runs.

Local Open Scope R_scope.
Local Open Scope string_scope.


(** C1, at an input where the second method breaks it: with
    [expectedValueT0 = 60], [Ts = 20] and a first draw of [0.5], the
    ["disconnect"] branch appends the whole dwell time [60 * ln 2] and
    returns, so the durations sum to more than [Ts]: the last interval is
    not clamped to the time that is left. *)
Theorem SecondMethod_GenerateBand_overshoots :
  SecondMethod.GenerateBand rand_half 60 40 20 1 "disconnect" 0 =
    Some ([mkState "Disconnect" (60 * ln 2)], 1%nat) /\
  20 * (1 + / 10 ^ 9) < SumOfTinState [mkState "Disconnect" (60 * ln 2)].
Proof.
  split.
  - unfold rand_half. run_band. reflexivity.
  - unfold SumOfTinState. cbn [fold_left T]. real_ops.
    pose proof ln_lt_2. lra.
Qed.

(** The third program on the same input returns one interval of length
    [Ts]. *)
Lemma Clamped_GenerateBand_same_input :
  Clamped.GenerateBand rand_half 60 40 20 1 "disconnect" 0 =
    Some ([mkState "Disconnect" 20], 1%nat).
Proof.
  unfold rand_half. run_band.
  replace (20 - 0) with 20 by lra. reflexivity.
Qed.

(** C5, at an input where the second method breaks it: with [Ts = 0] it
    returns one interval, from either initial state. *)
Theorem SecondMethod_GenerateBand_zero_session :
  SecondMethod.GenerateBand rand_half 60 40 0 1 "disconnect" 0 =
    Some ([mkState "Disconnect" (60 * ln 2)], 1%nat) /\
  SecondMethod.GenerateBand rand_half 60 40 0 1 "connect" 0 =
    Some ([mkState "Connect" (0 - 0)], 1%nat).
Proof.
  split; unfold rand_half; run_band; reflexivity.
Qed.

(** A run of the third program that writes two intervals. *)
Lemma Clamped_GenerateBand_two_intervals :
  Clamped.GenerateBand rand_half 1 1 1 2 "disconnect" 0 =
    Some ([mkState "Disconnect" (1 * ln 2);
           mkState "Connect" (1 - (0 + 1 * ln 2))], 2%nat).
Proof.
  unfold rand_half. run_band. reflexivity.
Qed.

End Runs.

Section Claims.

Local Open Scope R_scope.
Local Open Scope string_scope.

(** C3, on a run that writes two intervals. *)
Lemma GenerateBand_alternates_witness :
  alternating [mkState "Disconnect" (1 * ln 2);
               mkState "Connect" (1 - (0 + 1 * ln 2))] = true.
Proof.
  apply (GenerateBand_alternates rand_half 1 1 1 2 "disconnect" 0
           Clamped_GenerateBand_two_intervals).
Defined.

(** C10. With [Ts > 0], every sequence [GenerateBand] returns holds at
    least one interval, in the third program and in the second method
    alike, whatever the initial state, the means and the draws; and the
    generator does return when the dwell times drawn stay above some
    [delta > 0]. *)
Theorem GenerateBand_nonempty (rand : Rand R) (T0 T1 Ts : R)
    (initialState : string) (k : nat) :
  0 < Ts ->
  (forall fuel states k',
      Clamped.GenerateBand rand T0 T1 Ts fuel initialState k
        = Some (states, k') ->
      states <> []) /\
  (forall fuel states k',
      SecondMethod.GenerateBand rand T0 T1 Ts fuel initialState k
        = Some (states, k') ->
      states <> []) /\
  (forall delta,
      0 < delta ->
      (forall j, delta <= InverseCDFExponential (rand j) T0 /\
                 delta <= InverseCDFExponential (rand j) T1) ->
      (exists fuel r,
          Clamped.GenerateBand rand T0 T1 Ts fuel initialState k = Some r) /\
      (exists fuel r,
          SecondMethod.GenerateBand rand T0 T1 Ts fuel initialState k
            = Some r)).
Proof.
  intros HTs. split; [|split].
  - intros fuel states k' Hrun.
    apply (Clamped_loop_sum _ _ _ _ _ _ _ (r := (states, k'))) in Hrun;
      [apply Hrun|exact HTs].
  - intros fuel states k' Hrun.
    exact (SecondMethod_loop_nonempty _ _ _ _ _ _ _ _ Hrun).
  - intros delta Hdelta Hdwell.
    destruct (nat_above (Ts / delta)) as [n Hn].
    assert (Hleft : Ts - 0 <= INR n * delta).
    { apply Rmult_le_compat_r with (r := delta) in Hn; [|lra].
      unfold Rdiv in Hn. rewrite Rmult_assoc, Rinv_l, Rmult_1_r in Hn; lra. }
    split; exists (S n).
    + apply (@Clamped_loop_terminates rand T0 T1 Ts delta Hdelta Hdwell
               n [] initialState k);
        rewrite ?SumOfTinState_nil; lra.
    + apply (@SecondMethod_loop_terminates rand T0 T1 Ts delta Hdelta Hdwell
               n [] initialState k).
      rewrite SumOfTinState_nil. exact Hleft.
Qed.

Lemma rand_half_dwell_60_40 (j : nat) :
  20 <= InverseCDFExponential (rand_half j) 60 /\
  20 <= InverseCDFExponential (rand_half j) 40.
Proof.
  unfold rand_half. rewrite !InverseCDFExponential_half.
  pose proof ln_lt_2. split; lra.
Qed.

(** C10, with the means of [main], [Ts = 20] and draws of [0.5]. *)
Lemma GenerateBand_nonempty_witness :
  0 < 20 /\
  (exists fuel states k',
      Clamped.GenerateBand rand_half 60 40 20 fuel "disconnect" 0
        = Some (states, k') /\ states <> []) /\
  (exists fuel states k',
      SecondMethod.GenerateBand rand_half 60 40 20 fuel "disconnect" 0
        = Some (states, k') /\ states <> []).
Proof.
  assert (HTs : 0 < 20) by lra.
  destruct (GenerateBand_nonempty rand_half 60 40 "disconnect" 0 HTs)
    as (Hc & Hs & Hex).
  destruct (Hex 20 HTs rand_half_dwell_60_40)
    as [(f1 & [st1 k1] & H1) (f2 & [st2 k2] & H2)].
  split; [exact HTs|]. split.
  - exists f1, st1, k1. split; [exact H1|exact (Hc _ _ _ H1)].
  - exists f2, st2, k2. split; [exact H2|exact (Hs _ _ _ H2)].
Defined.

End Claims.

Lemma finalSize_from_cons {F : Type} {num : Float64 F} (i : nat)
    (s : State F) (rest : list (State F)) (w m g : F) :
  finalSize (SimulateDownload_from i (s :: rest) w m) g =
  let r := fsub g (fmul (speed_of s w m) (T s)) in
  if fleb r f0 then r
  else finalSize (SimulateDownload_from (S i) rest w m) r.
Proof.
  unfold finalSize. rewrite SimulateDownload_from_cons. cbv zeta.
  destruct (fleb _ f0); [reflexivity|].
  now destruct (SimulateDownload_from (S i) rest w m _) as [[u g'] o].
Qed.

Section MonotoneReal.

Local Open Scope R_scope.

Variables wifiSpeed mobileSpeed : R.
Hypothesis wifi_nonneg : 0 <= wifiSpeed.
Hypothesis mobile_nonneg : 0 <= mobileSpeed.

Lemma speed_of_nonneg (s : State R) : 0 <= speed_of s wifiSpeed mobileSpeed.
Proof.
  unfold speed_of. destruct (String.eqb _ _); real_ops; lra.
Qed.

Lemma step_non_increasing (s : State R) (g : R) :
  0 <= T s -> g - speed_of s wifiSpeed mobileSpeed * T s <= g.
Proof. intros HT. pose proof (speed_of_nonneg s). nra. Qed.

Lemma finalSize_from_le (states : list (State R)) :
  forall (i : nat) (g : R),
    Forall (fun s => 0 <= T s) states ->
    finalSize (SimulateDownload_from i states wifiSpeed mobileSpeed) g <= g.
Proof.
  induction states as [|s rest IH]; intros i g Hall.
  - cbn. lra.
  - inversion Hall as [|? ? HT Hrest]; subst.
    rewrite finalSize_from_cons. cbv zeta. real_ops.
    pose proof (step_non_increasing s g HT) as Hstep.
    destruct (Rleb _ 0); [exact Hstep|].
    specialize (IH (S i) (g - speed_of s wifiSpeed mobileSpeed * T s) Hrest).
    lra.
Qed.

Lemma finalSize_from_snoc_le (s : State R) (pre : list (State R)) :
  forall (i : nat) (g : R),
    0 <= T s ->
    finalSize (SimulateDownload_from i (pre ++ [s]) wifiSpeed mobileSpeed) g
    <= finalSize (SimulateDownload_from i pre wifiSpeed mobileSpeed) g.
Proof.
  induction pre as [|p pre IH]; intros i g HT.
  - cbn [app]. rewrite finalSize_from_cons. cbv zeta. real_ops.
    pose proof (step_non_increasing s g HT) as Hstep.
    unfold finalSize at 2. rewrite SimulateDownload_from_nil. cbn [fst snd].
    destruct (Rleb _ 0); [exact Hstep|].
    unfold finalSize. rewrite SimulateDownload_from_nil. exact Hstep.
  - rewrite <- app_comm_cons, !finalSize_from_cons. cbv zeta. real_ops.
    destruct (Rleb _ 0); [lra|]. now apply IH.
Qed.

End MonotoneReal.

(** C4. With durations and speeds that are not negative, [remainingSize]
    never grows: the value after a run is at most the value before it,
    and running one more interval of the sequence leaves a value at most
    the one left by the intervals before it. *)
Theorem remainingSize_non_increasing (states : list (State R))
    (wifiSpeed mobileSpeed g : R) :
  (0 <= wifiSpeed)%R -> (0 <= mobileSpeed)%R ->
  Forall (fun s => (0 <= T s)%R) states ->
  (finalSize (SimulateDownload states wifiSpeed mobileSpeed) g <= g)%R /\
  (forall pre s post,
      states = pre ++ s :: post ->
      (finalSize (SimulateDownload (pre ++ [s]) wifiSpeed mobileSpeed) g
       <= finalSize (SimulateDownload pre wifiSpeed mobileSpeed) g)%R).
Proof.
  intros Hw Hm Hall. split.
  - now apply finalSize_from_le.
  - intros pre s post ->. apply finalSize_from_snoc_le; try assumption.
    rewrite Forall_forall in Hall. apply Hall, in_elt.
Qed.

(** C4, on a sequence of three intervals of which the run takes two. *)
Lemma remainingSize_non_increasing_witness :
  let states := [mkState "Connect" 1%R; mkState "Disconnect" 2%R;
                 mkState "Connect" 3%R] in
  (finalSize (SimulateDownload states 60%R 40%R) 150%R <= 150)%R /\
  (finalSize (SimulateDownload
                ([mkState "Connect" 1%R] ++ [mkState "Disconnect" 2%R])
                60%R 40%R) 150%R
   <= finalSize (SimulateDownload [mkState "Connect" 1%R] 60%R 40%R) 150%R)%R.
Proof.
  intros states.
  assert (Hw : (0 <= 60)%R) by lra.
  assert (Hm : (0 <= 40)%R) by lra.
  assert (Hall : Forall (fun s : State R => (0 <= T s)%R) states).
  { repeat constructor; cbn; lra. }
  destruct (remainingSize_non_increasing 150%R Hw Hm Hall) as [Hfin Hstep].
  split; [exact Hfin|].
  exact (Hstep [mkState "Connect" 1%R] (mkState "Disconnect" 2%R)
           [mkState "Connect" 3%R] eq_refl).
Defined.



Section SpentPayload.

Local Open Scope R_scope.
Local Open Scope string_scope.

(** C6 as stated fails: with [remainingSize = 0] and one ["Connect"]
    interval, the run prints and accounts that interval and leaves
    [remainingSize = -100]. *)
Lemma SimulateDownload_spent_payload_counterexample :
  ~ (printed (SimulateDownload [mkState "Connect" 1%float]
                60%float 40%float) 0%float = [] /\
     finalSize (SimulateDownload [mkState "Connect" 1%float]
                  60%float 40%float) 0%float = 0%float).
Proof. intros [H _]. vm_compute in H. discriminate H. Qed.

(** C6, amended.  When [remainingSize <= 0] on entry, and the speeds and
    the first duration are not negative, [SimulateDownload] still runs the
    first interval of the sequence, subtracts its download, and returns
    after it; the later intervals are not run and the download counts as
    complete.  On an empty sequence nothing is run and [remainingSize] is
    unchanged. *)
Theorem SimulateDownload_spent_payload (s : State R) (rest : list (State R))
    (wifiSpeed mobileSpeed g : R) :
  g <= 0 -> 0 <= wifiSpeed -> 0 <= mobileSpeed -> 0 <= T s ->
  let speed :=
    if String.eqb (state s) "Connect" then wifiSpeed + mobileSpeed
    else mobileSpeed in
  SimulateDownload (s :: rest) wifiSpeed mobileSpeed g =
    (tt, g - speed * T s,
     [PrintState 1 (state s) (T s); PrintDownloading (T s) speed]) /\
  download_complete (g - speed * T s) = true /\
  SimulateDownload [] wifiSpeed mobileSpeed g = (tt, g, []) /\
  download_complete g = true.
Proof.
  intros Hg Hw Hm HT speed.
  pose proof (step_non_increasing Hw Hm s g HT) as Hstep.
  change (speed_of s wifiSpeed mobileSpeed) with speed in Hstep.
  unfold download_complete. real_ops.
  repeat split.
  - unfold SimulateDownload. rewrite SimulateDownload_from_cons. cbv zeta.
    real_ops. change (speed_of s wifiSpeed mobileSpeed) with speed.
    rewrite Rleb_true by lra. reflexivity.
  - rewrite Rltb_false by lra. reflexivity.
  - rewrite Rltb_false by lra. reflexivity.
Qed.

(** C6, amended, at [remainingSize = 0] with two intervals. *)
Lemma SimulateDownload_spent_payload_witness :
  SimulateDownload [mkState "Connect" 1; mkState "Disconnect" 5] 60 40 0 =
    (tt, 0 - (60 + 40) * 1,
     [PrintState 1 "Connect" 1; PrintDownloading 1 (60 + 40)]) /\
  download_complete (0 - (60 + 40) * 1) = true.
Proof.
  assert (H0 : 0 <= 0) by lra.
  assert (Hw : 0 <= 60) by lra.
  assert (Hm : 0 <= 40) by lra.
  assert (HT : 0 <= T (mkState "Connect" 1)) by (cbn; lra).
  destruct (SimulateDownload_spent_payload (mkState "Connect" 1)
              [mkState "Disconnect" 5] H0 Hw Hm HT) as (Hrun & Hdone & _).
  split; [exact Hrun|exact Hdone].
Defined.

End SpentPayload.

Section FloatRuns.

Local Open Scope string_scope.
Local Open Scope float_scope.

(** C7 as stated fails: on an empty sequence the division is carried out,
    [0 / 0], and the average is NaN. *)
Lemma MeasureBandwidth_unguarded_counterexample :
  totalBandwidth [] 60 40 = 0 /\
  of_len (F := float) (List.length (A := State float) []) = 0 /\
  PrimFloat.is_nan (avgBandwidth [] 60 40) = true.
Proof. repeat split. Qed.

(** C7, amended.  [MeasureBandwidth] has no test for an empty sequence:
    the average is then [0 / 0 = NaN], the comparison [NaN > 40] is false
    and the flag is [0], whatever the speeds; [SimulateDownload] on the
    empty sequence leaves [remainingSize] as it was. *)
Theorem MeasureBandwidth_empty (wifiSpeed mobileSpeed g : float) :
  PrimFloat.is_nan (avgBandwidth [] wifiSpeed mobileSpeed) = true /\
  MeasureBandwidth [] wifiSpeed mobileSpeed = 0%nat /\
  SimulateDownload [] wifiSpeed mobileSpeed g = (tt, g, []).
Proof. repeat split. Qed.

(** C8 as stated fails: on a first draw of [0], [Pareto] with the
    parameters of [main] returns an infinite size and has made one draw;
    this holds whatever [math.Log] and [math.Pow] return away from their
    special arguments. *)
Lemma Pareto_zero_draw_counterexample :
  ~ (forall (log : float -> float) (pow : float -> float -> float),
        let r := Pareto (math := GoMath log pow) rand_zero (25 / 3) 220 0 in
        PrimFloat.is_finite (fst r) = true \/ (1 < snd r)%nat).
Proof.
  intros H. specialize (H (fun x => x) (fun x _ => x)).
  vm_compute in H. destruct H as [H|H]; [discriminate H|].
  apply Nat.lt_irrefl in H. exact H.
Qed.

(** C8, amended.  The samplers do not draw again.  [Pareto] makes one
    draw and returns [xm / math.Pow(u, 1.0/alpha)] for it: when the draw is
    [0] and [1.0/alpha] lies strictly between [0] and [1], that is
    [xm / 0], which is [+Inf] for the [xm] of both [main] functions, and
    stays [+Inf] when [main] multiplies it by [8].
    [InverseCDFExponential] makes no draw; at [u = 1] it returns [+Inf]
    (for the mean [60] of [main]). *)
Theorem Pareto_degenerate_draw (log : float -> float)
    (pow : float -> float -> float) (rand : Rand float) (alpha xm : float)
    (k : nat) :
  rand k = 0 ->
  (0 <? 1 / alpha) = true ->
  (1 / alpha <? 1) = true ->
  Pareto (math := GoMath log pow) rand alpha xm k = (xm / 0, S k) /\
  220 / 0 = infinity /\ 2500 / 0 = infinity /\ infinity * 8 = infinity /\
  InverseCDFExponential (math := GoMath log pow) 1 60 = infinity.
Proof.
  intros Hu Hlo Hhi. split; [|repeat split].
  unfold Pareto. rewrite Hu. cbn [Pow GoMath fdiv f1 Float64_float].
  change PrimFloat.one with 1. change PrimFloat.zero with 0.
  rewrite Hlo, Hhi. reflexivity.
Qed.

(** C8, amended, with the parameters of the third [main]. *)
Lemma Pareto_degenerate_draw_witness :
  Pareto (math := GoMath (fun x => x) (fun x _ => x)) rand_zero (25 / 3) 220 0
  = (infinity, 1%nat).
Proof.
  refine (proj1 (@Pareto_degenerate_draw (fun x => x) (fun x _ => x)
                   rand_zero (25 / 3) 220 0 _ _ _));
    vm_compute; reflexivity.
Defined.

End FloatRuns.

(** ** Further properties of the programs *)

(** *** The samplers, over the reals *)

Section SamplerFacts.

Local Open Scope R_scope.

Lemma ln_monotone (x y : R) : 0 < x -> x <= y -> ln x <= ln y.
Proof.
  intros Hx [Hlt| ->]; [|apply Rle_refl].
  left. now apply ln_increasing.
Qed.

(** X1. [InverseCDFExponential] inverts the exponential distribution
    function: for a mean [val > 0] and a draw [u] in [[0, 1)], the dwell
    time [t] it returns satisfies [1 - exp (- t / val) = u]. *)
Theorem InverseCDFExponential_inverts_cdf (u val : R) :
  0 < val -> 0 <= u < 1 ->
  1 - exp (- (InverseCDFExponential u val / val)) = u.
Proof.
  intros Hval [Hu0 Hu1]. unfold InverseCDFExponential. real_ops.
  replace (- (- val * ln (1 - u) / val)) with (ln (1 - u)) by (field; lra).
  rewrite exp_ln; lra.
Qed.

Lemma InverseCDFExponential_inverts_cdf_witness :
  1 - exp (- (InverseCDFExponential (1 / 2) 60 / 60)) = 1 / 2.
Proof. apply InverseCDFExponential_inverts_cdf; lra. Defined.

(** X2. For a mean that is not negative, the dwell time is not negative
    and grows with the draw: [0 <= u1 <= u2 < 1] gives
    [0 <= t(u1) <= t(u2)]; the mean scales it linearly. *)
Theorem InverseCDFExponential_monotone (u1 u2 val c : R) :
  0 <= val -> 0 <= u1 -> u1 <= u2 -> u2 < 1 ->
  0 <= InverseCDFExponential u1 val <= InverseCDFExponential u2 val /\
  InverseCDFExponential u1 (c * val) = c * InverseCDFExponential u1 val.
Proof.
  intros Hval H0 H12 H1. split; [split|].
  - apply InverseCDFExponential_nonneg; lra.
  - unfold InverseCDFExponential. real_ops.
    assert (Hln : ln (1 - u2) <= ln (1 - u1)) by (apply ln_monotone; lra).
    nra.
  - unfold InverseCDFExponential. real_ops. ring.
Qed.

Lemma InverseCDFExponential_monotone_witness :
  0 <= InverseCDFExponential (1 / 4) 60 <= InverseCDFExponential (1 / 2) 60 /\
  InverseCDFExponential (1 / 4) (2 * 60) = 2 * InverseCDFExponential (1 / 4) 60.
Proof. apply InverseCDFExponential_monotone; lra. Defined.

Lemma Rpower_unit_interval (u y : R) :
  0 < u <= 1 -> 0 < y -> 0 < Rpower u y <= 1.
Proof.
  intros [Hu0 Hu1] Hy. unfold Rpower. split; [apply exp_pos|].
  assert (Hln : ln u <= 0) by (rewrite <- ln_1; apply ln_monotone; lra).
  rewrite <- exp_0.
  destruct (Req_dec (y * ln u) 0) as [->|Hne]; [apply Rle_refl|].
  left. apply exp_increasing. nra.
Qed.

(** X3. With [alpha > 0], [xm > 0] and a draw [u] in [(0, 1)], [Pareto]
    makes one draw and returns a size [x >= xm] with
    [(xm / x) ^ alpha = u]: the Pareto survival function is inverted and
    the size is never below the minimum. *)
Theorem Pareto_inverts_survival (rand : Rand R) (alpha xm : R) (k : nat) :
  0 < alpha -> 0 < xm -> 0 < rand k < 1 ->
  let x := fst (Pareto rand alpha xm k) in
  xm <= x /\ Rpower (xm / x) alpha = rand k /\
  snd (Pareto rand alpha xm k) = S k.
Proof.
  intros Halpha Hxm [Hu0 Hu1] x. subst x. unfold Pareto. cbn [fst snd].
  real_ops.
  assert (Hy : 0 < 1 / alpha) by (apply Rdiv_lt_0_compat; lra).
  destruct (@Rpower_unit_interval (rand k) (1 / alpha)) as [Hp0 Hp1];
    [lra|exact Hy|].
  set (p := Rpower (rand k) (1 / alpha)) in *.
  split; [|split; [|reflexivity]].
  - apply Rmult_le_reg_r with (r := p); [exact Hp0|].
    unfold Rdiv. rewrite Rmult_assoc, Rinv_l by lra. nra.
  - replace (xm / (xm / p)) with p by (field; lra).
    unfold p. rewrite Rpower_mult.
    replace (1 / alpha * alpha) with 1 by (field; lra).
    apply Rpower_1. exact Hu0.
Qed.

Lemma Pareto_inverts_survival_witness :
  let x := fst (Pareto rand_half 2 2500 0) in
  2500 <= x /\ Rpower (2500 / x) 2 = rand_half 0%nat /\
  snd (Pareto rand_half 2 2500 0) = 1%nat.
Proof.
  apply Pareto_inverts_survival; unfold rand_half; lra.
Defined.

End SamplerFacts.

(** A run of the second method that writes two intervals. *)
Lemma SecondMethod_GenerateBand_two_intervals :
  SecondMethod.GenerateBand rand_half 1%R 1%R 1%R 2 "disconnect" 0 =
    Some ([mkState "Disconnect" (1 * ln 2)%R;
           mkState "Connect" (1 - (0 + 1 * ln 2))%R], 2%nat).
Proof.
  unfold rand_half. run_band. reflexivity.
Qed.

(** *** The shape of a generated sequence, for every number type *)

Section ShapeFacts.

Context {F : Type} {num : Float64 F} {math : MathLib F}.

Local Open Scope string_scope.
Local Open Scope list_scope.

Variable rand : Rand F.
Variables expectedValueT0 expectedValueT1 Ts : F.

Lemma label_of_cases (c : string) :
  label_of c = "Connect" \/ label_of c = "Disconnect".
Proof. unfold label_of. destruct (String.eqb c "disconnect"); auto. Qed.

Lemma added_shape_nil (c : string) (k : nat) :
  added_shape (F := F) c k [] (S k) 1.
Proof.
  repeat split; [constructor|discriminate|cbn; lia|cbn; lia].
Qed.

Lemma added_shape_one (c : string) (k : nat) (t : F) (slack : nat) :
  added_shape c k [mkState (label_of c) t] (S k) slack.
Proof.
  repeat split.
  - constructor; [apply label_of_cases|constructor].
  - now intros s rest [= <- _].
  - cbn. lia.
  - cbn. lia.
Qed.

Lemma added_shape_cons (c : string) (k : nat) (t : F)
    (added : list (State F)) (k' slack : nat) :
  added_shape (NextState c) (S k) added k' slack ->
  added_shape c k (mkState (label_of c) t :: added) k' slack.
Proof.
  intros (Hall & _ & Hk). repeat split.
  - constructor; [apply label_of_cases|exact Hall].
  - now intros s rest [= <- _].
  - cbn [List.length]. lia.
  - cbn [List.length]. lia.
Qed.

Lemma Clamped_loop_shape (fuel : nat) :
  forall (states : list (State F)) (c : string) (k : nat)
         (r : list (State F) * nat),
    Clamped.GenerateBand_loop rand expectedValueT0 expectedValueT1 Ts
      fuel states c k = Some r ->
    exists added, fst r = states ++ added /\ added_shape c k added (snd r) 1.
Proof.
  induction fuel as [|fuel IH]; intros states c k r Hrun; [discriminate|].
  cbn [Clamped.GenerateBand_loop] in Hrun.
  pose proof (added_shape_one c k) as Hone.
  pose proof (fun t => @added_shape_cons c k t) as Hcons.
  unfold label_of in Hone, Hcons.
  destruct (String.eqb c "disconnect");
    match type of Hrun with
    | (if ?b then _ else _) = _ => destruct b
    end.
  1,3: injection Hrun as <-; cbn [fst snd];
       match goal with |- context [if ?b then _ else _] => destruct b end;
       [eexists; split; [reflexivity|apply Hone]
       |exists []; split; [now rewrite app_nil_r|apply added_shape_nil]].
  all: apply IH in Hrun as (added & Hfst & Hshape);
       eexists; split;
       [rewrite Hfst, <- app_assoc; reflexivity|apply Hcons, Hshape].
Qed.

Lemma SecondMethod_loop_shape (fuel : nat) :
  forall (states : list (State F)) (c : string) (k : nat)
         (r : list (State F) * nat),
    SecondMethod.GenerateBand_loop rand expectedValueT0 expectedValueT1 Ts
      fuel states c k = Some r ->
    exists added, fst r = states ++ added /\ added_shape c k added (snd r) 0.
Proof.
  induction fuel as [|fuel IH]; intros states c k r Hrun; [discriminate|].
  cbn [SecondMethod.GenerateBand_loop] in Hrun.
  pose proof (fun t => added_shape_one c k t 0) as Hone.
  pose proof (fun t => @added_shape_cons c k t) as Hcons.
  unfold label_of in Hone, Hcons.
  destruct (String.eqb c "disconnect");
    match type of Hrun with
    | (if ?b then _ else _) = _ => destruct b
    end.
  1,3: injection Hrun as <-; cbn [fst snd];
       eexists; split; [reflexivity|apply Hone].
  all: apply IH in Hrun as (added & Hfst & Hshape);
       eexists; split;
       [rewrite Hfst, <- app_assoc; reflexivity|apply Hcons, Hshape].
Qed.

End ShapeFacts.

(** X4. Whatever string is passed as the initial state, every interval
    of a sequence returned by [GenerateBand] (either variant) is labelled
    ["Connect"] or ["Disconnect"], and the first one is ["Disconnect"]
    exactly when the initial state is the lower-case string ["disconnect"];
    any other string, ["Disconnect"] included, starts with ["Connect"]. *)
Theorem GenerateBand_labels {F : Type} {num : Float64 F} {math : MathLib F}
    (rand : Rand F) (T0 T1 Ts : F) (fuel : nat) (initialState : string)
    (k k' : nat) (states : list (State F)) :
  Clamped.GenerateBand rand T0 T1 Ts fuel initialState k = Some (states, k') \/
  SecondMethod.GenerateBand rand T0 T1 Ts fuel initialState k
    = Some (states, k') ->
  Forall (fun s => state s = "Connect"%string \/ state s = "Disconnect"%string)
    states /\
  (forall s rest,
      states = s :: rest ->
      state s = if String.eqb initialState "disconnect"
                then "Disconnect"%string else "Connect"%string).
Proof.
  intros [Hrun|Hrun].
  - apply Clamped_loop_shape in Hrun as (added & Hfst & Hall & Hhd & _).
    cbn in Hfst. subst added. split; [exact Hall|exact Hhd].
  - apply SecondMethod_loop_shape in Hrun as (added & Hfst & Hall & Hhd & _).
    cbn in Hfst. subst added. split; [exact Hall|exact Hhd].
Qed.

Lemma GenerateBand_labels_witness :
  Forall (fun s : State R =>
            state s = "Connect"%string \/ state s = "Disconnect"%string)
    [mkState "Disconnect" (1 * ln 2)%R;
     mkState "Connect" (1 - (0 + 1 * ln 2))%R] /\
  (forall s rest,
      [mkState "Disconnect" (1 * ln 2)%R;
       mkState "Connect" (1 - (0 + 1 * ln 2))%R] = s :: rest ->
      state s = "Disconnect"%string).
Proof.
  exact (GenerateBand_labels rand_half 1%R 1%R 1%R 2 "disconnect" 0
           (or_introl Clamped_GenerateBand_two_intervals)).
Defined.

(** X5. The second method makes exactly one draw per interval it
    returns: the count of draws grows by the length of the sequence. *)
Theorem SecondMethod_GenerateBand_draws {F : Type} {num : Float64 F}
    {math : MathLib F} (rand : Rand F) (T0 T1 Ts : F) (fuel : nat)
    (initialState : string) (k k' : nat) (states : list (State F)) :
  SecondMethod.GenerateBand rand T0 T1 Ts fuel initialState k
    = Some (states, k') ->
  k' = k + List.length states.
Proof.
  intros Hrun.
  apply SecondMethod_loop_shape in Hrun as (added & Hfst & _ & _ & Hk).
  cbn in Hfst, Hk. subst added. lia.
Qed.

Lemma SecondMethod_GenerateBand_draws_witness :
  2 = 0 + List.length [mkState "Disconnect" (1 * ln 2)%R;
                       mkState "Connect" (1 - (0 + 1 * ln 2))%R].
Proof.
  exact (SecondMethod_GenerateBand_draws rand_half 1%R 1%R 1%R 2
           "disconnect" 0 SecondMethod_GenerateBand_two_intervals).
Defined.

(** X6. The third program makes one draw per interval it returns, and at
    most one more: the draw of the last iteration is spent even when the
    remainder is not positive and no interval is appended for it. *)
Theorem Clamped_GenerateBand_draws {F : Type} {num : Float64 F}
    {math : MathLib F} (rand : Rand F) (T0 T1 Ts : F) (fuel : nat)
    (initialState : string) (k k' : nat) (states : list (State F)) :
  Clamped.GenerateBand rand T0 T1 Ts fuel initialState k
    = Some (states, k') ->
  k + List.length states <= k' <= k + List.length states + 1.
Proof.
  intros Hrun.
  apply Clamped_loop_shape in Hrun as (added & Hfst & _ & _ & Hk).
  cbn in Hfst, Hk. subst added. exact Hk.
Qed.

Lemma Clamped_GenerateBand_draws_witness :
  0 + List.length [mkState "Disconnect" (1 * ln 2)%R;
                   mkState "Connect" (1 - (0 + 1 * ln 2))%R] <= 2
  <= 0 + List.length [mkState "Disconnect" (1 * ln 2)%R;
                      mkState "Connect" (1 - (0 + 1 * ln 2))%R] + 1.
Proof.
  exact (Clamped_GenerateBand_draws rand_half 1%R 1%R 1%R 2 "disconnect" 0
           Clamped_GenerateBand_two_intervals).
Defined.

(** X7. [InitState] feeds [GenerateBand]: it makes one draw [u], and the
    sequence generated from the state it returns starts with a
    ["Disconnect"] interval when [u <= T0 / (T1 + T0)] and with a
    ["Connect"] interval otherwise. *)
Theorem InitState_first_interval {F : Type} {num : Float64 F}
    {math : MathLib F} (rand : Rand F) (T0 T1 Ts : F) (fuel : nat)
    (k k' : nat) (s : State F) (rest : list (State F)) :
  Clamped.GenerateBand rand T0 T1 Ts fuel
    (fst (InitState rand T0 T1 k)) (snd (InitState rand T0 T1 k))
    = Some (s :: rest, k') ->
  snd (InitState rand T0 T1 k) = S k /\
  state s = if fleb (rand k) (fdiv T0 (fadd T1 T0))
            then "Disconnect"%string else "Connect"%string.
Proof.
  intros Hrun. split; [reflexivity|].
  apply Clamped_loop_shape in Hrun as (added & Hfst & _ & Hhd & _).
  cbn [fst app] in Hfst. rewrite (Hhd s rest (eq_sym Hfst)).
  unfold InitState, label_of. cbn [fst].
  destruct (fleb (rand k) (fdiv T0 (fadd T1 T0))); reflexivity.
Qed.

Lemma InitState_then_GenerateBand_run :
  Clamped.GenerateBand rand_half 1%R 1%R 1%R 2
    (fst (InitState rand_half 1%R 1%R 0)) (snd (InitState rand_half 1%R 1%R 0))
  = Some ([mkState "Disconnect" (1 * ln 2)%R;
           mkState "Connect" (1 - (0 + 1 * ln 2))%R], 3%nat).
Proof.
  unfold InitState, rand_half. cbn [fst snd]. real_ops.
  rewrite Rleb_true by lra. run_band. reflexivity.
Qed.

Lemma InitState_first_interval_witness :
  snd (InitState rand_half 1%R 1%R 0) = 1%nat /\
  state (mkState "Disconnect" (1 * ln 2)%R) =
    if fleb (rand_half 0%nat) (fdiv 1%R (fadd 1%R 1%R))
    then "Disconnect"%string else "Connect"%string.
Proof.
  exact (InitState_first_interval rand_half 1%R 1%R 1%R 2 0
           InitState_then_GenerateBand_run).
Defined.

(** *** The generated sequence, over the reals *)

Section SequenceReal.

Local Open Scope string_scope.
Local Open Scope list_scope.
Local Open Scope R_scope.

Variable rand : Rand R.
Variables expectedValueT0 expectedValueT1 Ts : R.

Hypothesis T0_nonneg : 0 <= expectedValueT0.
Hypothesis T1_nonneg : 0 <= expectedValueT1.
Hypothesis rand_range : forall j, 0 <= rand j < 1.

Lemma dwell_nonneg (j : nat) :
  0 <= InverseCDFExponential (rand j) expectedValueT0 /\
  0 <= InverseCDFExponential (rand j) expectedValueT1.
Proof. split; apply InverseCDFExponential_nonneg; auto. Qed.

(** In the third program every draw of a run with [Ts > 0] yields an
    interval, and every interval lasts between [0] and [Ts]. *)
Lemma Clamped_loop_durations (fuel : nat) :
  forall (states : list (State R)) (c : string) (k : nat)
         (r : list (State R) * nat),
    0 <= SumOfTinState states < Ts ->
    Forall (fun s => 0 <= T s <= Ts) states ->
    Clamped.GenerateBand_loop rand expectedValueT0 expectedValueT1 Ts
      fuel states c k = Some r ->
    Forall (fun s => 0 <= T s <= Ts) (fst r) /\
    (snd r + List.length states = k + List.length (fst r))%nat.
Proof.
  induction fuel as [|fuel IH]; intros states c k r Hsum Hall Hrun;
    [discriminate|].
  cbn [Clamped.GenerateBand_loop] in Hrun. real_ops.
  destruct (dwell_nonneg k) as [H0 H1].
  assert (Hsnoc : forall l t, 0 <= t <= Ts ->
            Forall (fun s : State R => 0 <= T s <= Ts)
              (states ++ [mkState l t])).
  { intros l t Ht. apply Forall_app. split; [exact Hall|].
    constructor; [exact Ht|constructor]. }
  destruct (String.eqb c "disconnect").
  - split_test Hrun.
    + rewrite Rltb_true in Hrun by lra. injection Hrun as <-. cbn [fst snd].
      split; [apply Hsnoc; lra|]. rewrite length_app. cbn. lia.
    + destruct (Rltb_case Ts (InverseCDFExponential (rand k) expectedValueT0))
        as [[Hc E0]|[Hc E0]]; rewrite E0 in *; [lra|].
      apply IH in Hrun.
      * rewrite length_app in Hrun. cbn [List.length] in Hrun.
        split; [apply Hrun|]. destruct Hrun as [_ Hk]. lia.
      * rewrite SumOfTinState_snoc. cbn [T]. lra.
      * apply Hsnoc. lra.
  - split_test Hrun.
    + rewrite Rltb_true in Hrun by lra. injection Hrun as <-. cbn [fst snd].
      split; [apply Hsnoc; lra|]. rewrite length_app. cbn. lia.
    + destruct (Rltb_case Ts (InverseCDFExponential (rand k) expectedValueT1))
        as [[Hc E0]|[Hc E0]]; rewrite E0 in *; [lra|].
      apply IH in Hrun.
      * rewrite length_app in Hrun. cbn [List.length] in Hrun.
        split; [apply Hrun|]. destruct Hrun as [_ Hk]. lia.
      * rewrite SumOfTinState_snoc. cbn [T]. lra.
      * apply Hsnoc. lra.
Qed.

(** In the second method, the intervals before the last sum to less than
    [Ts] and the whole sequence to [Ts] or more. *)
Lemma SecondMethod_loop_sum (fuel : nat) :
  forall (states : list (State R)) (c : string) (k : nat)
         (r : list (State R) * nat),
    SumOfTinState states < Ts ->
    SecondMethod.GenerateBand_loop rand expectedValueT0 expectedValueT1 Ts
      fuel states c k = Some r ->
    exists pre final,
      fst r = pre ++ [final] /\
      SumOfTinState pre < Ts <= SumOfTinState (fst r) /\
      (state final = "Connect" -> SumOfTinState (fst r) = Ts).
Proof.
  induction fuel as [|fuel IH]; intros states c k r Hsum Hrun; [discriminate|].
  cbn [SecondMethod.GenerateBand_loop] in Hrun. real_ops.
  destruct (String.eqb c "disconnect").
  - split_test Hrun.
    + injection Hrun as <-. cbn [fst].
      exists states, (mkState "Disconnect"
                        (InverseCDFExponential (rand k) expectedValueT0)).
      split; [reflexivity|]. split; [split; [exact Hsum|exact Hle]|].
      intros H. cbn in H. discriminate H.
    + eapply IH; [|exact Hrun]. lra.
  - split_test Hrun.
    + injection Hrun as <-. cbn [fst].
      exists states, (mkState "Connect" (Ts - SumOfTinState states)).
      split; [reflexivity|].
      rewrite SumOfTinState_snoc. cbn [T]. repeat split; lra.
    + eapply IH; [|exact Hrun]. rewrite SumOfTinState_snoc. cbn [T]. lra.
Qed.

End SequenceReal.

(** X8. In the third program, for means that are not negative, draws in
    [[0, 1)] and [Ts > 0]: the durations of the returned sequence sum to
    [Ts], each of them lies between [0] and [Ts], and every draw made has
    produced an interval. *)
Theorem Clamped_GenerateBand_fills_session (rand : Rand R) (T0 T1 Ts : R)
    (fuel : nat) (initialState : string) (k k' : nat)
    (states : list (State R)) :
  (0 <= T0)%R -> (0 <= T1)%R -> (forall j, 0 <= rand j < 1)%R -> (0 < Ts)%R ->
  Clamped.GenerateBand rand T0 T1 Ts fuel initialState k = Some (states, k') ->
  SumOfTinState states = Ts /\
  Forall (fun s => 0 <= T s <= Ts)%R states /\
  k' = k + List.length states.
Proof.
  intros HT0 HT1 Hrand HTs Hrun.
  assert (Hsum : SumOfTinState states = Ts).
  { eapply Clamped_GenerateBand_sum; eassumption. }
  eapply Clamped_loop_durations in Hrun; try eassumption.
  - destruct Hrun as [Hall Hk]. cbn in Hk.
    split; [exact Hsum|]. split; [exact Hall|lia].
  - rewrite SumOfTinState_nil. lra.
  - constructor.
Qed.

Lemma rand_half_range (j : nat) : (0 <= rand_half j < 1)%R.
Proof. unfold rand_half. lra. Qed.

Lemma Clamped_GenerateBand_fills_session_witness :
  SumOfTinState [mkState "Disconnect" (1 * ln 2)%R;
                 mkState "Connect" (1 - (0 + 1 * ln 2))%R] = 1%R /\
  Forall (fun s => 0 <= T s <= 1)%R
    [mkState "Disconnect" (1 * ln 2)%R;
     mkState "Connect" (1 - (0 + 1 * ln 2))%R] /\
  2 = 0 + List.length [mkState "Disconnect" (1 * ln 2)%R;
                       mkState "Connect" (1 - (0 + 1 * ln 2))%R].
Proof.
  apply (@Clamped_GenerateBand_fills_session rand_half 1%R 1%R 1%R 2
           "disconnect" 0 2).
  - lra.
  - lra.
  - exact rand_half_range.
  - lra.
  - exact Clamped_GenerateBand_two_intervals.
Defined.

(** X9. In the third program, for means that are not negative and a
    draw in [[0, 1)], a session time [Ts <= 0] gives the empty sequence
    after one draw. *)
Theorem Clamped_GenerateBand_no_session (rand : Rand R) (T0 T1 Ts : R)
    (fuel : nat) (initialState : string) (k : nat) :
  (0 <= T0)%R -> (0 <= T1)%R -> (0 <= rand k < 1)%R -> (Ts <= 0)%R ->
  Clamped.GenerateBand rand T0 T1 Ts (S fuel) initialState k = Some ([], S k).
Proof.
  intros HT0 HT1 Hu HTs.
  pose proof (InverseCDFExponential_nonneg HT0 Hu) as H0.
  pose proof (InverseCDFExponential_nonneg HT1 Hu) as H1.
  unfold Clamped.GenerateBand.
  cbn [Clamped.GenerateBand_loop]. real_ops.
  rewrite SumOfTinState_nil.
  destruct (String.eqb initialState "disconnect").
  - destruct (Rltb_case Ts (InverseCDFExponential (rand k) T0))
      as [[Hc ->]|[Hc ->]];
      rewrite Rleb_true by lra; rewrite Rltb_false by lra; reflexivity.
  - destruct (Rltb_case Ts (InverseCDFExponential (rand k) T1))
      as [[Hc ->]|[Hc ->]];
      rewrite Rleb_true by lra; rewrite Rltb_false by lra; reflexivity.
Qed.

Lemma Clamped_GenerateBand_no_session_witness :
  Clamped.GenerateBand rand_half 60%R 40%R (-5)%R 1 "connect" 0
  = Some ([], 1%nat).
Proof.
  apply Clamped_GenerateBand_no_session;
    try apply rand_half_range; lra.
Defined.

(** X10. In the second method with [Ts > 0], the returned sequence
    reaches the session time only with its last interval: the intervals
    before the last sum to less than [Ts], the whole sequence to [Ts] or
    more, and to [Ts] exactly when the last interval is a ["Connect"]
    one. *)
Theorem SecondMethod_GenerateBand_reaches_session (rand : Rand R)
    (T0 T1 Ts : R) (fuel : nat) (initialState : string) (k k' : nat)
    (states : list (State R)) :
  (0 < Ts)%R ->
  SecondMethod.GenerateBand rand T0 T1 Ts fuel initialState k
    = Some (states, k') ->
  exists pre final,
    states = pre ++ [final] /\
    (SumOfTinState pre < Ts <= SumOfTinState states)%R /\
    (state final = "Connect"%string -> SumOfTinState states = Ts).
Proof.
  intros HTs Hrun.
  apply SecondMethod_loop_sum in Hrun; [exact Hrun|].
  rewrite SumOfTinState_nil. exact HTs.
Qed.

Lemma SecondMethod_GenerateBand_reaches_session_witness :
  exists pre final,
    [mkState "Disconnect" (1 * ln 2)%R;
     mkState "Connect" (1 - (0 + 1 * ln 2))%R] = pre ++ [final] /\
    (SumOfTinState pre < 1
     <= SumOfTinState [mkState "Disconnect" (1 * ln 2)%R;
                       mkState "Connect" (1 - (0 + 1 * ln 2))%R])%R /\
    (state final = "Connect"%string ->
     SumOfTinState [mkState "Disconnect" (1 * ln 2)%R;
                    mkState "Connect" (1 - (0 + 1 * ln 2))%R] = 1%R).
Proof.
  apply (@SecondMethod_GenerateBand_reaches_session rand_half 1%R 1%R 1%R 2
           "disconnect" 0 2).
  - lra.
  - exact SecondMethod_GenerateBand_two_intervals.
Defined.

(** X11. The second method, too, returns sequences whose neighbouring
    intervals carry different labels, whatever the initial state, the
    parameters and the draws. *)
Theorem SecondMethod_GenerateBand_alternates {F : Type} {num : Float64 F}
    {math : MathLib F} (rand : Rand F) (T0 T1 Ts : F) (fuel : nat)
    (initialState : string) (k k' : nat) (states : list (State F)) :
  SecondMethod.GenerateBand rand T0 T1 Ts fuel initialState k
    = Some (states, k') ->
  alternating states = true.
Proof.
  intros Hrun. change states with (fst (states, k')).
  eapply SecondMethod_loop_alternating; [|exact Hrun].
  apply alternation_inv_nil.
Qed.

Lemma SecondMethod_GenerateBand_alternates_witness :
  alternating [mkState "Disconnect" (1 * ln 2)%R;
               mkState "Connect" (1 - (0 + 1 * ln 2))%R] = true.
Proof.
  exact (SecondMethod_GenerateBand_alternates rand_half 1%R 1%R 1%R 2
           "disconnect" 0 SecondMethod_GenerateBand_two_intervals).
Defined.

(** *** A run that never ends *)

Section ZeroDraws.

Local Open Scope R_scope.

Variable rand : Rand R.
Variables expectedValueT0 expectedValueT1 Ts : R.
Hypothesis rand_zero_draws : forall j, rand j = 0.

Lemma dwell_zero (j : nat) (val : R) : InverseCDFExponential (rand j) val = 0.
Proof.
  unfold InverseCDFExponential. real_ops.
  rewrite rand_zero_draws, Rminus_0_r, ln_1. ring.
Qed.

Lemma Clamped_loop_zero_draws (fuel : nat) :
  forall (states : list (State R)) (c : string) (k : nat),
    SumOfTinState states < Ts ->
    Clamped.GenerateBand_loop rand expectedValueT0 expectedValueT1 Ts
      fuel states c k = None.
Proof.
  induction fuel as [|fuel IH]; intros states c k Hsum; [reflexivity|].
  cbn [Clamped.GenerateBand_loop]. real_ops. rewrite !dwell_zero.
  assert (HTs : 0 <= Ts \/ Ts < 0) by lra.
  destruct (String.eqb c "disconnect");
    (destruct (Rltb_case Ts 0) as [[Hc ->]|[Hc ->]];
     [rewrite Rleb_false by lra|rewrite Rleb_false by lra];
     apply IH; rewrite SumOfTinState_snoc; cbn [T]; lra).
Qed.

Lemma SecondMethod_loop_zero_draws (fuel : nat) :
  forall (states : list (State R)) (c : string) (k : nat),
    SumOfTinState states < Ts ->
    SecondMethod.GenerateBand_loop rand expectedValueT0 expectedValueT1 Ts
      fuel states c k = None.
Proof.
  induction fuel as [|fuel IH]; intros states c k Hsum; [reflexivity|].
  cbn [SecondMethod.GenerateBand_loop]. real_ops. rewrite !dwell_zero.
  destruct (String.eqb c "disconnect").
  - rewrite SumOfTinState_snoc. cbn [T]. rewrite Rleb_false by lra.
    apply IH. rewrite SumOfTinState_snoc. cbn [T]. lra.
  - rewrite Rleb_false by lra.
    apply IH. rewrite SumOfTinState_snoc. cbn [T]. lra.
Qed.

End ZeroDraws.

(** X12. When every draw is [0], every dwell time is [0] and, for
    [Ts > 0], the loop of [GenerateBand] never reaches its [break]: no
    number of iterations yields a result, in either variant. *)
Theorem GenerateBand_zero_draws_never_returns (rand : Rand R) (T0 T1 Ts : R)
    (fuel : nat) (initialState : string) (k : nat) :
  (forall j, rand j = 0%R) -> (0 < Ts)%R ->
  Clamped.GenerateBand rand T0 T1 Ts fuel initialState k = None /\
  SecondMethod.GenerateBand rand T0 T1 Ts fuel initialState k = None.
Proof.
  intros Hzero HTs. split.
  - apply Clamped_loop_zero_draws; [exact Hzero|].
    rewrite SumOfTinState_nil. exact HTs.
  - apply SecondMethod_loop_zero_draws; [exact Hzero|].
    rewrite SumOfTinState_nil. exact HTs.
Qed.

Lemma GenerateBand_zero_draws_never_returns_witness :
  Clamped.GenerateBand (fun _ => 0%R) 60%R 40%R 50%R 1000 "connect" 0 = None /\
  SecondMethod.GenerateBand (fun _ => 0%R) 60%R 40%R 50%R 1000 "connect" 0
    = None.
Proof.
  apply GenerateBand_zero_draws_never_returns; [reflexivity|lra].
Defined.

(** *** The accounting of the simulator, over the reals *)

Section AccountingReal.

Local Open Scope list_scope.
Local Open Scope R_scope.

Variables wifiSpeed mobileSpeed : R.

Lemma printed_from_cons (i : nat) (s : State R) (rest : list (State R))
    (g : R) :
  printed (SimulateDownload_from i (s :: rest) wifiSpeed mobileSpeed) g =
  let r := g - speed_of s wifiSpeed mobileSpeed * T s in
  lines_of i s wifiSpeed mobileSpeed ++
  if Rleb r 0 then []
  else printed (SimulateDownload_from (S i) rest wifiSpeed mobileSpeed) r.
Proof.
  unfold printed. rewrite SimulateDownload_from_cons. cbv zeta. real_ops.
  destruct (Rleb _ 0); [now rewrite app_nil_r|].
  now destruct (SimulateDownload_from (S i) rest wifiSpeed mobileSpeed _)
    as [[u g'] o].
Qed.

(** The run takes some first [p] intervals, prints two lines for each and
    subtracts what they download; it stops short of the end only with
    [remainingSize <= 0]. *)
Lemma SimulateDownload_from_accounting (states : list (State R)) :
  forall (i : nat) (g : R),
  exists p : nat,
    (p <= List.length states)%nat /\
    (states <> [] -> 1 <= p)%nat /\
    printed (SimulateDownload_from i states wifiSpeed mobileSpeed) g =
      lines_from i (firstn p states) wifiSpeed mobileSpeed /\
    finalSize (SimulateDownload_from i states wifiSpeed mobileSpeed) g =
      g - downloaded (firstn p states) wifiSpeed mobileSpeed /\
    ((p < List.length states)%nat ->
     finalSize (SimulateDownload_from i states wifiSpeed mobileSpeed) g <= 0).
Proof.
  induction states as [|s rest IH]; intros i g.
  - exists 0%nat. cbn. repeat split; try lia; try lra. congruence.
  - rewrite finalSize_from_cons, printed_from_cons. cbv zeta. real_ops.
    destruct (Rleb_case (g - speed_of s wifiSpeed mobileSpeed * T s) 0)
      as [[Hr ->]|[Hr ->]].
    + exists 1%nat. cbn [firstn lines_from downloaded List.length]. real_ops.
      repeat split; try lia; try lra.
    + destruct (IH (S i) (g - speed_of s wifiSpeed mobileSpeed * T s))
        as (p & Hp & _ & Hprint & Hfinal & Hstop).
      exists (S p). cbn [firstn lines_from downloaded List.length]. real_ops.
      repeat split; try lia.
      * now rewrite Hprint.
      * rewrite Hfinal. lra.
      * intros Hlt. apply Hstop. lia.
Qed.

Lemma length_lines_from (states : list (State R)) :
  forall i : nat,
    List.length (lines_from i states wifiSpeed mobileSpeed)
    = (2 * List.length states)%nat.
Proof.
  induction states as [|s rest IH]; intros i; [reflexivity|].
  cbn [lines_from lines_of app List.length]. rewrite IH. lia.
Qed.

Lemma SumOfTinState_from (states : list (State R)) :
  forall a : R,
    fold_left (fun sum s => sum + T s) states a = a + SumOfTinState states.
Proof.
  unfold SumOfTinState. real_ops.
  induction states as [|s rest IH]; intros a; cbn [fold_left]; [lra|].
  rewrite IH, (IH (0 + T s)). lra.
Qed.

Lemma SumOfTinState_cons (s : State R) (rest : list (State R)) :
  SumOfTinState (s :: rest) = T s + SumOfTinState rest.
Proof.
  unfold SumOfTinState at 1. real_ops. cbn [fold_left].
  rewrite SumOfTinState_from. lra.
Qed.

Lemma SumOfTinState_nonneg (states : list (State R)) :
  Forall (fun s => 0 <= T s) states -> 0 <= SumOfTinState states.
Proof.
  induction 1 as [|s rest HT _ IH]; [rewrite SumOfTinState_nil; lra|].
  rewrite SumOfTinState_cons. lra.
Qed.

Hypothesis wifi_nonneg : 0 <= wifiSpeed.
Hypothesis mobile_nonneg : 0 <= mobileSpeed.

Lemma speed_of_bounds (s : State R) :
  mobileSpeed <= speed_of s wifiSpeed mobileSpeed <= wifiSpeed + mobileSpeed.
Proof. unfold speed_of. destruct (String.eqb _ _); real_ops; lra. Qed.

(** What is left lies between what the full speed and what the mobile
    speed alone would leave over the whole sequence, unless the download
    is done. *)
Lemma finalSize_from_bounds (states : list (State R)) :
  forall (i : nat) (g : R),
    Forall (fun s => 0 <= T s) states ->
    let final :=
      finalSize (SimulateDownload_from i states wifiSpeed mobileSpeed) g in
    g - (wifiSpeed + mobileSpeed) * SumOfTinState states <= final /\
    (final <= 0 \/ final <= g - mobileSpeed * SumOfTinState states).
Proof.
  induction states as [|s rest IH]; intros i g Hall final; subst final.
  - unfold finalSize. rewrite SimulateDownload_from_nil, SumOfTinState_nil.
    cbn [fst snd]. split; [lra|right; lra].
  - inversion Hall as [|? ? HT Hrest]; subst.
    pose proof (SumOfTinState_nonneg Hrest) as Hsum.
    pose proof (speed_of_bounds s) as [Hlo Hhi].
    rewrite finalSize_from_cons, SumOfTinState_cons. cbv zeta. real_ops.
    destruct (Rleb_case (g - speed_of s wifiSpeed mobileSpeed * T s) 0)
      as [[Hr ->]|[Hr ->]].
    + split; [nra|left; exact Hr].
    + destruct (IH (S i) (g - speed_of s wifiSpeed mobileSpeed * T s) Hrest)
        as [Hge Hle].
      split; [nra|]. destruct Hle as [Hle|Hle]; [left; exact Hle|right; nra].
Qed.

End AccountingReal.

(** X13. A run of [SimulateDownload] takes the first [p] intervals of
    the sequence, at least one when there is one: it prints two lines for
    each of them, in order and numbered from [1]; it leaves
    [remainingSize] lowered by what those [p] intervals download; and when
    it stops before the end of the sequence, [remainingSize <= 0]. *)
Theorem SimulateDownload_accounting (states : list (State R))
    (wifiSpeed mobileSpeed g : R) :
  exists p : nat,
    p <= List.length states /\
    (states <> [] -> 1 <= p) /\
    printed (SimulateDownload states wifiSpeed mobileSpeed) g =
      lines_from 0 (firstn p states) wifiSpeed mobileSpeed /\
    List.length (printed (SimulateDownload states wifiSpeed mobileSpeed) g)
      = 2 * p /\
    finalSize (SimulateDownload states wifiSpeed mobileSpeed) g =
      (g - downloaded (firstn p states) wifiSpeed mobileSpeed)%R /\
    (p < List.length states ->
     (finalSize (SimulateDownload states wifiSpeed mobileSpeed) g <= 0)%R).
Proof.
  destruct (SimulateDownload_from_accounting wifiSpeed mobileSpeed states 0 g)
    as (p & Hp & Hone & Hprint & Hfinal & Hstop).
  exists p. unfold SimulateDownload.
  repeat split; try assumption.
  rewrite Hprint, length_lines_from, length_firstn. lia.
Qed.

(** X14. With durations and speeds that are not negative, a run lowers
    [remainingSize] by at most the full speed times the total duration;
    the download is complete whenever the payload is at most the mobile
    speed times the total duration, and incomplete whenever it exceeds the
    full speed times the total duration. *)
Theorem SimulateDownload_capacity (states : list (State R))
    (wifiSpeed mobileSpeed g : R) :
  (0 <= wifiSpeed)%R -> (0 <= mobileSpeed)%R ->
  Forall (fun s => (0 <= T s)%R) states ->
  let final := finalSize (SimulateDownload states wifiSpeed mobileSpeed) g in
  (g - (wifiSpeed + mobileSpeed) * SumOfTinState states <= final)%R /\
  ((g <= mobileSpeed * SumOfTinState states)%R ->
   download_complete final = true) /\
  (((wifiSpeed + mobileSpeed) * SumOfTinState states < g)%R ->
   download_complete final = false).
Proof.
  intros Hw Hm Hall final.
  destruct (finalSize_from_bounds Hw Hm 0 g Hall) as [Hge Hle].
  fold (SimulateDownload states wifiSpeed mobileSpeed) in Hge, Hle.
  fold final in Hge, Hle. unfold download_complete. real_ops.
  split; [exact Hge|]. split; intros Hg.
  - rewrite Rltb_false; [reflexivity|]. destruct Hle; lra.
  - rewrite Rltb_true; [reflexivity|]. lra.
Qed.

Lemma SimulateDownload_capacity_witness :
  let states := [mkState "Connect" 1%R; mkState "Disconnect" 2%R] in
  let final := finalSize (SimulateDownload states 60%R 40%R) 100%R in
  (100 - (60 + 40) * SumOfTinState states <= final)%R /\
  ((100 <= 40 * SumOfTinState states)%R -> download_complete final = true) /\
  (((60 + 40) * SumOfTinState states < 100)%R ->
   download_complete final = false).
Proof.
  intros states.
  apply SimulateDownload_capacity; try lra.
  repeat constructor; cbn; lra.
Defined.

(** X15. Generator and simulator together, in the third program: for
    means and speeds that are not negative, draws in [[0, 1)] and
    [Ts > 0], a download run as [main] runs it over the generated
    sequence is complete whenever the payload is at most
    [mobileSpeed * Ts], and is incomplete, with at least
    [payload - (wifiSpeed + mobileSpeed) * Ts] left, whenever the payload
    exceeds [(wifiSpeed + mobileSpeed) * Ts]. *)
Theorem generated_session_download (rand : Rand R) (T0 T1 Ts : R)
    (fuel : nat) (initialState : string) (k k' : nat)
    (states : list (State R)) (payload wifiSpeed mobileSpeed g : R) :
  (0 <= T0)%R -> (0 <= T1)%R -> (forall j, 0 <= rand j < 1)%R -> (0 < Ts)%R ->
  (0 <= wifiSpeed)%R -> (0 <= mobileSpeed)%R ->
  Clamped.GenerateBand rand T0 T1 Ts fuel initialState k = Some (states, k') ->
  let final :=
    finalSize (main_download payload states wifiSpeed mobileSpeed) g in
  ((payload <= mobileSpeed * Ts)%R -> download_complete final = true) /\
  (((wifiSpeed + mobileSpeed) * Ts < payload)%R ->
   download_complete final = false /\
   (payload - (wifiSpeed + mobileSpeed) * Ts <= final)%R).
Proof.
  intros HT0 HT1 Hrand HTs Hw Hm Hrun final.
  assert (Hsum : SumOfTinState states = Ts).
  { eapply Clamped_GenerateBand_sum; eassumption. }
  assert (Hall : Forall (fun s => (0 <= T s)%R) states).
  { eapply Clamped_loop_durations in Hrun; try eassumption.
    - destruct Hrun as [Hall _]. cbn [fst] in Hall.
      eapply Forall_impl; [|exact Hall]. cbn. intros s Hs. lra.
    - rewrite SumOfTinState_nil. lra.
    - constructor. }
  destruct (finalSize_from_bounds Hw Hm 0 payload Hall) as [Hge Hle].
  rewrite Hsum in Hge, Hle.
  assert (Hfinal : final =
            finalSize (SimulateDownload_from 0 states wifiSpeed mobileSpeed)
              payload).
  { unfold final, finalSize. now rewrite main_download_resets. }
  rewrite <- Hfinal in Hge, Hle. unfold download_complete. real_ops.
  split; intros Hp.
  - rewrite Rltb_false; [reflexivity|]. destruct Hle; lra.
  - split; [|exact Hge]. rewrite Rltb_true; [reflexivity|]. lra.
Qed.

Lemma generated_session_download_witness :
  let states := [mkState "Disconnect" (1 * ln 2)%R;
                 mkState "Connect" (1 - (0 + 1 * ln 2))%R] in
  let final := finalSize (main_download 10%R states 60%R 40%R) 0%R in
  ((10 <= 40 * 1)%R -> download_complete final = true) /\
  (((60 + 40) * 1 < 10)%R ->
   download_complete final = false /\ (10 - (60 + 40) * 1 <= final)%R).
Proof.
  intros states.
  apply (@generated_session_download rand_half 1%R 1%R 1%R 2 "disconnect"
           0 2 states 10%R 60%R 40%R 0%R); try lra.
  - exact rand_half_range.
  - exact Clamped_GenerateBand_two_intervals.
Defined.

(** *** The bandwidth flag *)

Lemma totalBandwidth_labels {F : Type} {num : Float64 F}
    (w m : F) (a : list (State F)) :
  forall (b : list (State F)) (acc : F),
    map (@state F) a = map (@state F) b ->
    fold_left
      (fun totalb s =>
         if String.eqb (state s) "Connect" then fadd totalb (fadd w m)
         else if String.eqb (state s) "Disconnect" then fadd totalb m
         else totalb) a acc =
    fold_left
      (fun totalb s =>
         if String.eqb (state s) "Connect" then fadd totalb (fadd w m)
         else if String.eqb (state s) "Disconnect" then fadd totalb m
         else totalb) b acc.
Proof.
  induction a as [|x a IH]; intros [|y b] acc Hmap; try discriminate;
    [reflexivity|].
  cbn [map] in Hmap. injection Hmap as Hxy Hmap.
  cbn [fold_left]. rewrite Hxy. now apply IH.
Qed.

(** X16. [MeasureBandwidth] looks at the labels of the intervals only:
    two sequences with the same labels in the same order get the same
    average and the same flag, whatever their durations (the average is
    over intervals, not over time), on every number type. *)
Theorem MeasureBandwidth_ignores_durations {F : Type} {num : Float64 F}
    (a b : list (State F)) (wifiSpeed mobileSpeed : F) :
  map (@state F) a = map (@state F) b ->
  avgBandwidth a wifiSpeed mobileSpeed = avgBandwidth b wifiSpeed mobileSpeed /\
  MeasureBandwidth a wifiSpeed mobileSpeed
  = MeasureBandwidth b wifiSpeed mobileSpeed.
Proof.
  intros Hmap.
  assert (Havg : avgBandwidth a wifiSpeed mobileSpeed
                 = avgBandwidth b wifiSpeed mobileSpeed).
  { unfold avgBandwidth, totalBandwidth.
    rewrite (totalBandwidth_labels wifiSpeed mobileSpeed a b f0 Hmap).
    now rewrite <- (length_map (@state F) a), Hmap, length_map. }
  split; [exact Havg|]. unfold MeasureBandwidth. now rewrite Havg.
Qed.

Lemma MeasureBandwidth_ignores_durations_witness :
  avgBandwidth [mkState "Connect" 1%float; mkState "Disconnect" 49%float]
    60%float 40%float
  = avgBandwidth [mkState "Connect" 49%float; mkState "Disconnect" 1%float]
      60%float 40%float /\
  MeasureBandwidth [mkState "Connect" 1%float; mkState "Disconnect" 49%float]
    60%float 40%float
  = MeasureBandwidth [mkState "Connect" 49%float; mkState "Disconnect" 1%float]
      60%float 40%float.
Proof.
  apply MeasureBandwidth_ignores_durations. reflexivity.
Defined.

Section BandwidthReal.

Local Open Scope string_scope.
Local Open Scope list_scope.
Local Open Scope R_scope.

Variables wifiSpeed mobileSpeed : R.

Lemma totalBandwidth_from (states : list (State R)) :
  forall acc : R,
    Forall (fun s => state s = "Connect" \/ state s = "Disconnect") states ->
    fold_left
      (fun totalb s =>
         if String.eqb (state s) "Connect"
         then totalb + (wifiSpeed + mobileSpeed)
         else if String.eqb (state s) "Disconnect" then totalb + mobileSpeed
         else totalb) states acc =
    acc + INR (List.length states) * mobileSpeed
        + INR (count_connect states) * wifiSpeed.
Proof.
  unfold count_connect.
  induction states as [|s rest IH]; intros acc Hall.
  - cbn. lra.
  - inversion Hall as [|? ? Hs Hrest]; subst.
    cbn [fold_left filter]. rewrite IH by exact Hrest.
    change (List.length (s :: rest)) with (S (List.length rest)).
    rewrite S_INR.
    destruct Hs as [-> | ->]; cbn [String.eqb Ascii.eqb Bool.eqb andb];
      [cbn [List.length]; rewrite S_INR|]; lra.
Qed.

Lemma count_connect_le (states : list (State R)) :
  (count_connect states <= List.length states)%nat.
Proof. unfold count_connect. apply filter_length_le. Qed.

Lemma avgBandwidth_formula (states : list (State R)) :
  Forall (fun s => state s = "Connect" \/ state s = "Disconnect") states ->
  states <> [] ->
  avgBandwidth states wifiSpeed mobileSpeed =
  mobileSpeed
  + wifiSpeed * (INR (count_connect states) / INR (List.length states)).
Proof.
  intros Hall Hne. unfold avgBandwidth, totalBandwidth. real_ops.
  rewrite totalBandwidth_from by exact Hall.
  assert (Hn : 0 < INR (List.length states)).
  { apply lt_0_INR. destruct states; [congruence|cbn; lia]. }
  field. lra.
Qed.

End BandwidthReal.

(** X17. Over the reals, for a non-empty sequence labelled as
    [GenerateBand] labels it: the average bandwidth is [mobileSpeed] plus
    [wifiSpeed] times the share of ["Connect"] intervals.  Hence, with
    [wifiSpeed >= 0], the run is flagged whenever [mobileSpeed > 40] and
    never when [wifiSpeed + mobileSpeed <= 40]; and with [mobileSpeed = 40]
    and [wifiSpeed > 0], the values of the third [main], it is flagged
    exactly when the sequence holds a ["Connect"] interval. *)
Theorem MeasureBandwidth_criterion (states : list (State R))
    (wifiSpeed mobileSpeed : R) :
  Forall (fun s => state s = "Connect"%string \/ state s = "Disconnect"%string)
    states ->
  states <> [] ->
  (0 <= wifiSpeed)%R ->
  (avgBandwidth states wifiSpeed mobileSpeed =
   mobileSpeed
   + wifiSpeed * (INR (count_connect states) / INR (List.length states)))%R /\
  ((40 < mobileSpeed)%R -> MeasureBandwidth states wifiSpeed mobileSpeed = 1) /\
  ((wifiSpeed + mobileSpeed <= 40)%R ->
   MeasureBandwidth states wifiSpeed mobileSpeed = 0) /\
  (mobileSpeed = 40%R -> (0 < wifiSpeed)%R ->
   (MeasureBandwidth states wifiSpeed mobileSpeed = 1
    <-> 0 < count_connect states)).
Proof.
  intros Hall Hne Hw.
  pose proof (avgBandwidth_formula wifiSpeed mobileSpeed Hall Hne) as Havg.
  assert (Hn : (0 < INR (List.length states))%R).
  { apply lt_0_INR. destruct states; [congruence|cbn; lia]. }
  assert (Hc0 : (0 <= INR (count_connect states))%R) by apply pos_INR.
  assert (Hcn : (INR (count_connect states) <= INR (List.length states))%R).
  { apply le_INR, count_connect_le. }
  set (share := (INR (count_connect states) / INR (List.length states))%R)
    in *.
  assert (Hshare : (0 <= share <= 1)%R).
  { unfold share. split.
    - unfold Rdiv. apply Rmult_le_pos; [exact Hc0|].
      left. apply Rinv_0_lt_compat. exact Hn.
    - apply Rmult_le_reg_r with (r := INR (List.length states)); [exact Hn|].
      unfold Rdiv. rewrite Rmult_assoc, Rinv_l by lra. lra. }
  split; [exact Havg|].
  unfold MeasureBandwidth. real_ops. rewrite Havg.
  split; [|split].
  - intros Hm. rewrite Rltb_true; [reflexivity|nra].
  - intros Hwm. rewrite Rltb_false; [reflexivity|nra].
  - intros -> Hwpos. split.
    + intros Hflag.
      destruct (Nat.eq_dec (count_connect states) 0) as [Hz|Hz]; [|lia].
      exfalso. unfold share in Hflag. rewrite Hz in Hflag. cbn [INR] in Hflag.
      rewrite Rltb_false in Hflag; [discriminate|].
      unfold Rdiv. rewrite Rmult_0_l, Rmult_0_r. lra.
    + intros Hpos. rewrite Rltb_true; [reflexivity|].
      assert (Hs : (0 < share)%R).
      { unfold share. apply Rdiv_lt_0_compat; [|exact Hn].
        apply lt_0_INR. exact Hpos. }
      nra.
Qed.

Lemma MeasureBandwidth_criterion_witness :
  let states := [mkState "Disconnect" 30%R; mkState "Connect" 20%R] in
  (avgBandwidth states 60%R 40%R =
   40 + 60 * (INR (count_connect states) / INR (List.length states)))%R /\
  ((40 < 40)%R -> MeasureBandwidth states 60%R 40%R = 1) /\
  ((60 + 40 <= 40)%R -> MeasureBandwidth states 60%R 40%R = 0) /\
  (40%R = 40%R -> (0 < 60)%R ->
   (MeasureBandwidth states 60%R 40%R = 1 <-> 0 < count_connect states)).
Proof.
  intros states.
  apply MeasureBandwidth_criterion.
  - constructor; [right; reflexivity|].
    constructor; [left; reflexivity|constructor].
  - discriminate.
  - lra.
Defined.

(** *** The batch loop *)

Lemma MeasureBandwidth_flag {F : Type} {num : Float64 F}
    (states : list (State F)) (w m : F) :
  MeasureBandwidth states w m = 0 \/ MeasureBandwidth states w m = 1.
Proof. unfold MeasureBandwidth. destruct (fltb _ _); auto. Qed.

Lemma sum_flags_le (flags : list nat) :
  Forall (fun v => v = 0 \/ v = 1) flags ->
  forall a, fold_left Nat.add flags a <= a + List.length flags.
Proof.
  induction 1 as [|v flags Hv _ IH]; intros a; cbn [fold_left List.length];
    [lia|].
  specialize (IH (a + v)). destruct Hv; subst; lia.
Qed.

Section MainFacts.

Context {F : Type} {num : Float64 F} {math : MathLib F}.

Variable rand : Rand F.
Variables Ts T0 T1 wifiSpeed mobileSpeed alpha xm : F.
Variable fuel : nat.

Local Abbreviation iteration :=
  (main_iteration rand Ts T0 T1 wifiSpeed mobileSpeed alpha xm fuel).
Local Abbreviation loop :=
  (main_loop rand Ts T0 T1 wifiSpeed mobileSpeed alpha xm fuel).

(** One iteration, read off its definition: the sequence it generated,
    the flag it appended, and the update of the counts by the sign of
    what is left. *)
Lemma main_iteration_inv (k k' : nat) (g g' : F) (b b' : Batch F) :
  iteration k g b = Some (k', g', b') ->
  exists states,
    Clamped.GenerateBand rand T0 T1 Ts fuel
      (fst (InitState rand T0 T1 (S k))) (S (S k)) = Some (states, k') /\
    g' = finalSize (SimulateDownload states wifiSpeed mobileSpeed)
           (fmul (fst (Pareto rand alpha xm k)) (of_len 8)) /\
    results b' = results b ++ [MeasureBandwidth states wifiSpeed mobileSpeed] /\
    ((fltb f0 g' = true /\
      AvgRemainFailure b' = fadd (AvgRemainFailure b) g' /\
      deadline b' = deadline b + 1) \/
     (fltb f0 g' = false /\
      AvgRemainFailure b' = AvgRemainFailure b /\
      deadline b' = deadline b)).
Proof.
  unfold main_iteration, Pareto, InitState. cbn [fst snd].
  destruct (Clamped.GenerateBand _ _ _ _ _ _ _) as [[states k3]|];
    [|discriminate].
  destruct (fltb f0 _) eqn:Hpos; intros [= <- <- <-];
    exists states; cbn [results AvgRemainFailure deadline];
    repeat split; auto.
Qed.

Lemma main_loop_counts (n : nat) :
  forall (k k' : nat) (g g' : F) (b b' : Batch F),
    loop n k g b = Some (k', g', b') ->
    exists flags,
      results b' = results b ++ flags /\
      List.length flags = n /\
      Forall (fun v => v = 0 \/ v = 1) flags /\
      deadline b <= deadline b' <= deadline b + n /\
      k + 2 * n <= k'.
Proof.
  induction n as [|n IH]; intros k k' g g' b b' Hrun.
  - injection Hrun as <- <- <-. exists [].
    rewrite app_nil_r. repeat split; try constructor; lia.
  - cbn [main_loop] in Hrun.
    destruct (iteration k g b) as [[[k1 g1] b1]|] eqn:Hit; [|discriminate].
    apply main_iteration_inv in Hit
      as (states & Hgen & _ & Hres & Hcount).
    apply Clamped_loop_shape in Hgen as (added & _ & _ & _ & Hk).
    cbn [snd] in Hk.
    apply IH in Hrun as (flags & Hres' & Hlen & Hall & Hdl & Hk').
    exists (MeasureBandwidth states wifiSpeed mobileSpeed :: flags).
    assert (Hd : deadline b <= deadline b1 <= deadline b + 1)
      by (destruct Hcount as [(_ & _ & ->)|(_ & _ & ->)]; lia).
    split; [rewrite Hres', Hres, <- app_assoc; reflexivity|].
    split; [cbn; lia|].
    split; [constructor; [apply MeasureBandwidth_flag|exact Hall]|].
    lia.
Qed.

End MainFacts.

(** X18. In the batch loop of the third program, after [iterations]
    iterations that all returned: [results] holds one flag per iteration,
    each [0] or [1], so their sum is at most [iterations]; [deadline] is at
    most [iterations]; and at least two draws were made per iteration. *)
Theorem main_loop_counts_bounded {F : Type} {num : Float64 F}
    {math : MathLib F} (rand : Rand F)
    (Ts T0 T1 wifiSpeed mobileSpeed alpha xm : F) (fuel iterations : nat)
    (k k' : nat) (g g' : F) (b : Batch F) :
  main_loop rand Ts T0 T1 wifiSpeed mobileSpeed alpha xm fuel iterations
    k g main_start = Some (k', g', b) ->
  List.length (results b) = iterations /\
  Forall (fun v => v = 0 \/ v = 1) (results b) /\
  fold_left Nat.add (results b) 0 <= iterations /\
  deadline b <= iterations /\
  k + 2 * iterations <= k'.
Proof.
  intros Hrun.
  apply main_loop_counts in Hrun as (flags & Hres & Hlen & Hall & Hdl & Hk).
  cbn in Hres, Hdl. subst flags.
  repeat split; try assumption; try lia.
  pose proof (sum_flags_le Hall 0). lia.
Qed.

Section MainReal.

Local Open Scope R_scope.

Variable rand : Rand R.
Variables Ts T0 T1 wifiSpeed mobileSpeed alpha xm : R.
Variable fuel : nat.

Local Abbreviation loop :=
  (main_loop rand Ts T0 T1 wifiSpeed mobileSpeed alpha xm fuel).

Lemma Rltb_true_inv (x y : R) : Rltb x y = true -> x < y.
Proof. destruct (Rltb_case x y) as [[H _]|[_ E]]; [auto|congruence]. Qed.

Lemma main_loop_batch_inv (n : nat) :
  forall (k k' : nat) (g g' : R) (b b' : Batch R),
    loop n k g b = Some (k', g', b') -> batch_inv b -> batch_inv b'.
Proof.
  induction n as [|n IH]; intros k k' g g' b b' Hrun Hinv.
  - now injection Hrun as <- <- <-.
  - cbn [main_loop] in Hrun.
    destruct (main_iteration _ _ _ _ _ _ _ _ _ k g b)
      as [[[k1 g1] b1]|] eqn:Hit; [|discriminate].
    apply (IH _ _ _ _ _ _ Hrun).
    apply main_iteration_inv in Hit as (states & _ & _ & _ & Hcount).
    destruct Hinv as [H0 Hiff]. real_ops. unfold batch_inv.
    destruct Hcount as [(Hpos & -> & ->)|(_ & -> & ->)].
    + apply Rltb_true_inv in Hpos. split; [lra|]. split; intros _; [lia|lra].
    + split; assumption.
Qed.

Hypothesis alpha_pos : 0 < alpha.
Hypothesis xm_pos : 0 < xm.
Hypothesis rand_range : forall j, 0 < rand j < 1.
Hypothesis T0_nonneg : 0 <= T0.
Hypothesis T1_nonneg : 0 <= T1.
Hypothesis Ts_pos : 0 < Ts.
Hypothesis wifi_nonneg : 0 <= wifiSpeed.
Hypothesis mobile_nonneg : 0 <= mobileSpeed.
Hypothesis small_session : (wifiSpeed + mobileSpeed) * Ts < 8 * xm.

Lemma Pareto_lower_bound (k : nat) : xm <= fst (Pareto rand alpha xm k).
Proof.
  unfold Pareto. cbn [fst]. real_ops.
  assert (Hy : 0 < 1 / alpha) by (apply Rdiv_lt_0_compat; lra).
  destruct (rand_range k) as [Hu0 Hu1].
  destruct (@Rpower_unit_interval (rand k) (1 / alpha)) as [Hp0 Hp1];
    [lra|exact Hy|].
  apply Rmult_le_reg_r with (r := Rpower (rand k) (1 / alpha)); [exact Hp0|].
  unfold Rdiv. rewrite Rmult_assoc, Rinv_l by lra. nra.
Qed.

(** When even the smallest file exceeds what the full speed carries in a
    whole session, every iteration is a miss. *)
Lemma main_loop_misses (n : nat) :
  forall (k k' : nat) (g g' : R) (b b' : Batch R),
    loop n k g b = Some (k', g', b') ->
    deadline b' = (deadline b + n)%nat.
Proof.
  induction n as [|n IH]; intros k k' g g' b b' Hrun.
  - injection Hrun as <- <- <-. lia.
  - cbn [main_loop] in Hrun.
    destruct (main_iteration _ _ _ _ _ _ _ _ _ k g b)
      as [[[k1 g1] b1]|] eqn:Hit; [|discriminate].
    apply IH in Hrun. rewrite Hrun.
    apply main_iteration_inv in Hit as (states & Hgen & Hg1 & _ & Hcount).
    assert (Hrange : forall j, 0 <= rand j < 1).
    { intros j. destruct (rand_range j). lra. }
    assert (Hsum : SumOfTinState states = Ts).
    { eapply Clamped_GenerateBand_sum; eassumption. }
    assert (Hall : Forall (fun s => 0 <= T s) states).
    { eapply Clamped_loop_durations in Hgen; try eassumption.
      - destruct Hgen as [Hall _]. cbn [fst] in Hall.
        eapply Forall_impl; [|exact Hall]. cbn. intros s Hs. lra.
      - rewrite SumOfTinState_nil. lra.
      - constructor. }
    destruct (finalSize_from_bounds wifi_nonneg mobile_nonneg 0
                (fst (Pareto rand alpha xm k) * INR 8) Hall) as [Hge _].
    fold (SimulateDownload states wifiSpeed mobileSpeed) in Hge.
    real_ops. rewrite <- Hg1, Hsum in Hge.
    pose proof (Pareto_lower_bound k) as Hsize.
    assert (H8 : INR 8 = 8) by (cbn; lra). rewrite H8 in Hge.
    destruct Hcount as [(_ & _ & ->)|(Hneg & _ & _)]; [lia|].
    rewrite Rltb_true in Hneg by lra. discriminate.
Qed.

End MainReal.

Lemma Clamped_GenerateBand_two_intervals_at (k : nat) :
  Clamped.GenerateBand rand_half 1%R 1%R 1%R 2 "disconnect" k =
    Some ([mkState "Disconnect" (1 * ln 2)%R;
           mkState "Connect" (1 - (0 + 1 * ln 2))%R], S (S k)).
Proof.
  unfold rand_half. run_band. reflexivity.
Qed.

(** A batch that returns: draws of [0.5], means and session time [1]. *)
Lemma main_loop_rand_half_returns (n : nat) :
  forall (k : nat) (g : R) (b : Batch R),
  exists k' g' b',
    main_loop rand_half 1%R 1%R 1%R 60%R 40%R 2%R 2500%R 2 n k g b
    = Some (k', g', b').
Proof.
  induction n as [|n IH]; intros k g b; [cbn; eauto|].
  cbn [main_loop]. unfold main_iteration, Pareto, InitState. cbn [fst snd].
  real_ops.
  assert (Hinit : Rleb (rand_half (S k)) (1 / (1 + 1)) = true)
    by (unfold rand_half; apply Rleb_true; lra).
  rewrite Hinit, Clamped_GenerateBand_two_intervals_at.
  destruct (Rltb 0 _); apply IH.
Qed.

Lemma main_loop_counts_bounded_witness :
  exists k' g' b,
    main_loop rand_half 1%R 1%R 1%R 60%R 40%R 2%R 2500%R 2 3 0 0%R main_start
    = Some (k', g', b) /\
    List.length (results b) = 3 /\
    Forall (fun v => v = 0 \/ v = 1) (results b) /\
    fold_left Nat.add (results b) 0 <= 3 /\
    deadline b <= 3 /\
    0 + 2 * 3 <= k'.
Proof.
  destruct (main_loop_rand_half_returns 3 0 0%R main_start)
    as (k' & g' & b & Hrun).
  exists k', g', b. split; [exact Hrun|].
  exact (main_loop_counts_bounded _ _ _ _ _ _ _ _ _ _ _ _ Hrun).
Defined.

(** X19. In the batch loop of the third program, over the reals:
    [AvgRemainFailure] is positive exactly when [deadline] is, so the
    summary of the misses is computed exactly when some iteration missed
    its deadline; the miss ratio it reports lies in [(0, 1]], and the
    ratio of flagged iterations lies in [[0, 1]]. *)
Theorem main_summary_iff_miss (rand : Rand R)
    (Ts T0 T1 wifiSpeed mobileSpeed alpha xm : R) (fuel iterations : nat)
    (k k' : nat) (g g' : R) (b : Batch R) :
  0 < iterations ->
  main_loop rand Ts T0 T1 wifiSpeed mobileSpeed alpha xm fuel iterations
    k g main_start = Some (k', g', b) ->
  (fst (main_summary iterations b) = None <-> deadline b = 0) /\
  (forall avg ratio,
      fst (main_summary iterations b) = Some (avg, ratio) ->
      (0 < avg)%R /\ (0 < ratio <= 1)%R) /\
  (0 <= snd (main_summary iterations b) <= 1)%R.
Proof.
  intros Hn Hrun.
  assert (Hinv : batch_inv b).
  { eapply main_loop_batch_inv; [exact Hrun|].
    unfold batch_inv, main_start. cbn. split; [lra|]. split; [lra|lia]. }
  destruct Hinv as [Havg Hiff].
  pose proof Hrun as Hcounts.
  apply main_loop_counts in Hcounts as (flags & Hres & Hlen & Hall & Hdl & _).
  cbn in Hres, Hdl. subst flags.
  pose proof (sum_flags_le Hall 0) as Hsum. rewrite Hlen in Hsum.
  assert (HnR : (0 < INR iterations)%R) by (apply lt_0_INR; exact Hn).
  unfold main_summary. cbn [fst snd]. real_ops.
  split; [|split].
  - destruct (Rltb_case 0 (AvgRemainFailure b)) as [[Hc ->]|[Hc ->]].
    + split; [discriminate|]. apply Hiff in Hc. lia.
    + split; [|reflexivity]. intros _.
      destruct (Nat.eq_dec (deadline b) 0) as [Hz|Hz]; [exact Hz|].
      assert (Hpos : (0 < deadline b)%nat) by lia.
      apply Hiff in Hpos. lra.
  - intros avg ratio.
    destruct (Rltb_case 0 (AvgRemainFailure b)) as [[Hc ->]|[Hc ->]];
      [|discriminate].
    intros [= <- <-].
    assert (Hd : (0 < deadline b)%nat) by (apply Hiff; exact Hc).
    assert (HdR : (0 < INR (deadline b) <= INR iterations)%R).
    { split; [apply lt_0_INR; exact Hd|apply le_INR; lia]. }
    split; [apply Rdiv_lt_0_compat; lra|]. split.
    + apply Rdiv_lt_0_compat; lra.
    + apply Rmult_le_reg_r with (r := INR iterations); [exact HnR|].
      unfold Rdiv. rewrite Rmult_assoc, Rinv_l by lra. lra.
  - rewrite Hlen.
    assert (HsR : (0 <= INR (fold_left Nat.add (results b) 0%nat)
                   <= INR iterations)%R).
    { split; [apply pos_INR|apply le_INR; lia]. }
    split.
    + unfold Rdiv. apply Rmult_le_pos; [lra|].
      left. apply Rinv_0_lt_compat. exact HnR.
    + apply Rmult_le_reg_r with (r := INR iterations); [exact HnR|].
      unfold Rdiv. rewrite Rmult_assoc, Rinv_l by lra. lra.
Qed.

Lemma main_summary_iff_miss_witness :
  exists k' g' b,
    main_loop rand_half 1%R 1%R 1%R 60%R 40%R 2%R 2500%R 2 3 0 0%R main_start
    = Some (k', g', b) /\
    (fst (main_summary 3 b) = None <-> deadline b = 0) /\
    (forall avg ratio,
        fst (main_summary 3 b) = Some (avg, ratio) ->
        (0 < avg)%R /\ (0 < ratio <= 1)%R) /\
    (0 <= snd (main_summary 3 b) <= 1)%R.
Proof.
  destruct (main_loop_rand_half_returns 3 0 0%R main_start)
    as (k' & g' & b & Hrun).
  exists k', g', b. split; [exact Hrun|].
  apply (@main_summary_iff_miss rand_half 1%R 1%R 1%R 60%R 40%R 2%R 2500%R
           2 3 0 k' 0%R g' b); [lia|exact Hrun].
Defined.

(** X20. In the batch loop of the third program, over the reals, with
    valid parameters ([alpha > 0], [xm > 0], means and speeds not
    negative, [Ts > 0], draws in [(0, 1)]): when the smallest file,
    [8 * xm] megabits, exceeds what the full speed carries in a session,
    [(wifiSpeed + mobileSpeed) * Ts], every iteration misses its deadline
    and [deadline = iterations]. *)
Theorem main_loop_every_iteration_misses (rand : Rand R)
    (Ts T0 T1 wifiSpeed mobileSpeed alpha xm : R) (fuel iterations : nat)
    (k k' : nat) (g g' : R) (b : Batch R) :
  (0 < alpha)%R -> (0 < xm)%R -> (forall j, 0 < rand j < 1)%R ->
  (0 <= T0)%R -> (0 <= T1)%R -> (0 < Ts)%R ->
  (0 <= wifiSpeed)%R -> (0 <= mobileSpeed)%R ->
  ((wifiSpeed + mobileSpeed) * Ts < 8 * xm)%R ->
  main_loop rand Ts T0 T1 wifiSpeed mobileSpeed alpha xm fuel iterations
    k g main_start = Some (k', g', b) ->
  deadline b = iterations.
Proof.
  intros Ha Hxm Hrand HT0 HT1 HTs Hw Hm Hsmall Hrun.
  eapply main_loop_misses in Hrun; eassumption.
Qed.

Lemma rand_half_open_range (j : nat) : (0 < rand_half j < 1)%R.
Proof. unfold rand_half. lra. Qed.

Lemma main_loop_every_iteration_misses_witness :
  exists k' g' b,
    main_loop rand_half 1%R 1%R 1%R 60%R 40%R 2%R 2500%R 2 3 0 0%R main_start
    = Some (k', g', b) /\
    deadline b = 3.
Proof.
  destruct (main_loop_rand_half_returns 3 0 0%R main_start)
    as (k' & g' & b & Hrun).
  exists k', g', b. split; [exact Hrun|].
  apply (@main_loop_every_iteration_misses rand_half 1%R 1%R 1%R 60%R 40%R
           2%R 2500%R 2 3 0 k' 0%R g' b); try lra.
  - exact rand_half_open_range.
  - exact Hrun.
Defined.

(** *** The simulator: which intervals a run takes *)

Section PrefixFacts.

Context {F : Type} {num : Float64 F}.

Local Open Scope list_scope.

Variables wifiSpeed mobileSpeed : F.

(** A run from index [i] takes the first [p] intervals: it prints their
    lines and leaves what they leave; the test [remainingSize <= 0] failed
    after each interval before the [p]-th, and succeeded after the [p]-th
    when intervals remain. *)
Lemma SimulateDownload_from_prefix (states : list (State F)) :
  forall (i : nat) (g : F),
  exists p : nat,
    p <= List.length states /\
    (states <> [] -> 1 <= p) /\
    SimulateDownload_from i states wifiSpeed mobileSpeed g =
      (tt, payload_after (firstn p states) wifiSpeed mobileSpeed g,
       lines_from i (firstn p states) wifiSpeed mobileSpeed) /\
    (forall q, 1 <= q < p ->
       fleb (payload_after (firstn q states) wifiSpeed mobileSpeed g) f0
       = false) /\
    (p < List.length states ->
       fleb (payload_after (firstn p states) wifiSpeed mobileSpeed g) f0
       = true).
Proof.
  induction states as [|s rest IH]; intros i g.
  - exists 0. cbn. repeat split; try lia; congruence.
  - rewrite SimulateDownload_from_cons. cbv zeta.
    destruct (fleb (fsub g (fmul (speed_of s wifiSpeed mobileSpeed) (T s))) f0)
      eqn:Hr.
    + exists 1. cbn [firstn List.length]. split; [lia|]. split; [lia|].
      split; [unfold payload_after; cbn [fold_left lines_from];
              now rewrite app_nil_r|].
      split; [intros q Hq; lia|intros _; exact Hr].
    + destruct (IH (S i) (fsub g (fmul (speed_of s wifiSpeed mobileSpeed) (T s))))
        as (p & Hp & _ & Hrun & Hbefore & Hstop).
      exists (S p). rewrite Hrun. cbn [firstn List.length].
      split; [lia|]. split; [lia|]. split; [reflexivity|]. split.
      * intros [|q] Hq; [lia|]. cbn [firstn].
        destruct q as [|q]; [exact Hr|].
        apply (Hbefore (S q)). lia.
      * intros Hlt. apply Hstop. lia.
Qed.

End PrefixFacts.

Section SimulatorClaims.

Local Open Scope string_scope.
Local Open Scope list_scope.
Local Open Scope float_scope.

(** C2 as stated fails: with [remainingSize = -5] on entry the payload is
    already [<= 0] before any interval, yet the run takes the interval
    that follows and leaves [-85]; the test is not made before the first
    interval. *)
Lemma SimulateDownload_tests_after_counterexample :
  ~ ((finalSize (SimulateDownload [] 60 40) (-5) <=? 0) = true ->
     SimulateDownload ([] ++ [mkState "Disconnect" 2]) 60 40 (-5)
     = SimulateDownload [] 60 40 (-5)).
Proof.
  intros H. specialize (H eq_refl). vm_compute in H. discriminate H.
Qed.

End SimulatorClaims.

(** C2, amended.  [SimulateDownload] takes the intervals in order, and for
    each one it takes it subtracts [(wifiSpeed + mobileSpeed) * T] from
    [remainingSize] when the label is ["Connect"] and [mobileSpeed * T]
    otherwise.  The test [remainingSize <= 0] is made after each
    subtraction and never before the first: a run over a non-empty
    sequence takes a first interval whatever [remainingSize] is on entry,
    and stops right after the first interval that leaves
    [remainingSize <= 0]; the intervals after that one change neither
    [remainingSize] nor the output. *)
Theorem SimulateDownload_stops_after_subtraction {F : Type} {num : Float64 F}
    (states : list (State F)) (wifiSpeed mobileSpeed g : F) :
  (exists p : nat,
      p <= List.length states /\
      (states <> [] -> 1 <= p) /\
      SimulateDownload states wifiSpeed mobileSpeed g =
        (tt,
         fold_left
           (fun g s =>
              fsub g
                (fmul (if String.eqb (state s) "Connect"
                       then fadd wifiSpeed mobileSpeed else mobileSpeed)
                   (T s)))
           (firstn p states) g,
         lines_from 0 (firstn p states) wifiSpeed mobileSpeed) /\
      (forall q, 1 <= q < p ->
         fleb (payload_after (firstn q states) wifiSpeed mobileSpeed g) f0
         = false) /\
      (p < List.length states ->
         fleb (payload_after (firstn p states) wifiSpeed mobileSpeed g) f0
         = true)) /\
  (forall pre post : list (State F),
      states = pre ++ post ->
      pre <> [] ->
      fleb (finalSize (SimulateDownload pre wifiSpeed mobileSpeed) g) f0
      = true ->
      SimulateDownload states wifiSpeed mobileSpeed g
      = SimulateDownload pre wifiSpeed mobileSpeed g).
Proof.
  split.
  - exact (SimulateDownload_from_prefix wifiSpeed mobileSpeed states 0 g).
  - intros pre post -> Hne Hfin. now apply SimulateDownload_from_stops.
Qed.

(** C2, amended, on binary64 numbers: from [remainingSize = 50], one
    ["Connect"] interval of one second at [60 + 40] leaves [-50], and the
    interval after it is not run. *)
Lemma SimulateDownload_stops_after_subtraction_witness :
  SimulateDownload [mkState "Connect" 1%float; mkState "Disconnect" 5%float]
    60%float 40%float 50%float
  = SimulateDownload [mkState "Connect" 1%float] 60%float 40%float 50%float.
Proof.
  apply (proj2 (SimulateDownload_stops_after_subtraction
                  [mkState "Connect" 1%float; mkState "Disconnect" 5%float]
                  60%float 40%float 50%float)
           [mkState "Connect" 1%float] [mkState "Disconnect" 5%float]).
  - reflexivity.
  - discriminate.
  - vm_compute. reflexivity.
Defined.

(** C9.  A run of the simulator is a function of the sequence, the
    speeds and the initial payload alone.  Started as [main] starts it,
    with the payload assigned to [remainingSize], it takes a number [p] of
    intervals that these inputs fix, and its final [remainingSize] and its
    output are those of the first [p] intervals, whatever [remainingSize]
    held before; run again, or run after any other computation on
    [remainingSize], it gives the same final value and prints the same
    lines. *)
Theorem main_download_deterministic {F : Type} {num : Float64 F}
    (payload : F) (states : list (State F)) (wifiSpeed mobileSpeed : F) :
  exists p : nat,
    p <= List.length states /\
    (forall g : F,
        main_download payload states wifiSpeed mobileSpeed g =
        (tt, payload_after (firstn p states) wifiSpeed mobileSpeed payload,
         lines_from 0 (firstn p states) wifiSpeed mobileSpeed)) /\
    (forall (before : Prog unit) (g : F),
        let run := main_download payload states wifiSpeed mobileSpeed in
        finalSize (bind before (fun _ => run)) g
        = payload_after (firstn p states) wifiSpeed mobileSpeed payload /\
        printed (bind before (fun _ => run)) g
        = printed before g
          ++ lines_from 0 (firstn p states) wifiSpeed mobileSpeed).
Proof.
  destruct (SimulateDownload_from_prefix wifiSpeed mobileSpeed states 0 payload)
    as (p & Hp & _ & Hrun & _).
  assert (Hmain : forall g : F,
            main_download payload states wifiSpeed mobileSpeed g =
            (tt, payload_after (firstn p states) wifiSpeed mobileSpeed payload,
             lines_from 0 (firstn p states) wifiSpeed mobileSpeed)).
  { intros g. rewrite main_download_resets. exact Hrun. }
  exists p. split; [exact Hp|]. split; [exact Hmain|].
  intros before g run. unfold finalSize, printed, bind.
  destruct (before g) as [[u g1] o1]. subst run. rewrite Hmain.
  split; reflexivity.
Qed.
